(** * redcached: a memcached front end over a Redis backend

    A shallow embedding of package [rcdaemon]: the command handlers with
    the expiration translator, and the serve loop of [client.go], with the
    properties the specification states about them.

    The handlers talk to the world through calls only: the wall clock
    ([time.Now]) and the Redis client ([backend.Get], [backend.Set], ...).
    A handler is therefore embedded as a finite tree of calls, [Prog], whose
    nodes are the calls in the order the Go code issues them and whose
    branches are indexed by what the call returns.  Running a tree against
    an arbitrary implementation of the calls gives the result, the final
    state of the world and the log of the calls that were made. *)

From Stdlib Require Import ZArith Lia String Ascii List Bool DecimalString.
From stdpp Require Import base option list strings pretty gmap.

Local Open Scope string_scope.
Local Open Scope list_scope.
Local Open Scope Z_scope.

(** ** Machine integers *)

Module Int64.

Definition min_int : Z := - 2 ^ 63.
Definition max_int : Z := 2 ^ 63 - 1.

(** The value of a mathematical integer stored in a Go [int64]. *)
Definition wrap (z : Z) : Z := (z + 2 ^ 63) mod 2 ^ 64 - 2 ^ 63.

Definition in_range (z : Z) : Prop := min_int <= z <= max_int.

Definition add (a b : Z) : Z := wrap (a + b).
Definition sub (a b : Z) : Z := wrap (a - b).
Definition mul (a b : Z) : Z := wrap (a * b).

End Int64.

(** ** Go's [time] package, as far as [expirationParser] uses it

    A [time.Duration] is an [int64] count of nanoseconds.  A [time.Time]
    holds the seconds elapsed since January 1 of year 1 in an [int64], and
    the nanoseconds within that second. *)

Module time.

Definition Duration := Z.

Definition Second : Duration := 1000000000.
Definition minDuration : Duration := Int64.min_int.
Definition maxDuration : Duration := Int64.max_int.

Record Time := mkTime { sec : Z; nsec : Z }.

(** Seconds from year 1 to 1970: (1969*365 + 1969/4 - 1969/100 + 1969/400)
    days. *)
Definition unixToInternal : Z := (1969 * 365 + 1969 / 4 - 1969 / 100 + 1969 / 400) * 86400.

(** [time.Unix(sec, 0)]: the addition is an [int64] addition. *)
Definition Unix (s : Z) : Time :=
  {| sec := Int64.add s unixToInternal; nsec := 0 |}.

Definition Equal (t u : Time) : bool :=
  (sec t =? sec u) && (nsec t =? nsec u).

Definition Before (t u : Time) : bool :=
  (sec t <? sec u) || ((sec t =? sec u) && (nsec t <? nsec u)).

(** [t.Add(d)]: Go's [/] and [%] truncate towards zero. *)
Definition Add (t : Time) (d : Duration) : Time :=
  let s := Int64.add (sec t) (Z.quot d 1000000000) in
  let n := nsec t + Z.rem d 1000000000 in
  if 1000000000 <=? n then {| sec := Int64.add s 1; nsec := n - 1000000000 |}
  else if n <? 0 then {| sec := Int64.sub s 1; nsec := n + 1000000000 |}
  else {| sec := s; nsec := n |}.

(** [t.Sub(u)]: the difference is computed in [int64] and checked by adding
    it back; when the check fails the result saturates. *)
Definition Sub (t u : Time) : Duration :=
  let d := Int64.add (Int64.mul (Int64.sub (sec t) (sec u)) Second)
                     (nsec t - nsec u) in
  if Equal (Add u d) t then d
  else if Before t u then minDuration
  else maxDuration.

(** Nanoseconds since the Unix epoch, as a mathematical integer. *)
Definition unixNano (t : Time) : Z :=
  (sec t - unixToInternal) * 1000000000 + nsec t.

(** The readings of the wall clock the theorems range over: an instant
    from the epoch on, whose internal seconds stay clear of the [int64]
    bounds by more than any [Duration]. *)
Definition wall_clock (t : Time) : Prop :=
  unixToInternal <= sec t <= 2 ^ 62 /\ 0 <= nsec t < 1000000000.

End time.

(** ** Errors

    Go's [error] values, as far as this program tells them apart: the two
    sentinels it compares against, the codec's [ProtocolError] type, and
    everything else, which it only ever prints. *)

Inductive error :=
| redis_Nil                        (* redis.Nil: the key does not exist *)
| io_EOF                           (* io.EOF *)
| ProtocolError (msg : string)     (* protocol.ProtocolError *)
| errorString (msg : string).      (* fmt.Errorf, backend and i/o failures *)

Definition Error (e : error) : string :=
  match e with
  | redis_Nil => "redis: nil"
  | io_EOF => "EOF"
  | ProtocolError msg => msg
  | errorString msg => msg
  end.

#[global] Instance error_eq_dec : EqDecision error.
Proof. solve_decision. Defined.

(** ** The Redis client's replies

    Every command of [gopkg.in/redis.v3] returns a [*Cmd] holding a value
    and an error; [Val] reads the one, [Err] the other, [Result] both. *)

Record Cmd (V : Type) := mkCmd { Val : V; Err : option error }.
Arguments mkCmd {V} _ _.
Arguments Val {V} _.
Arguments Err {V} _.

(** ** Calls *)

Inductive call :=
| Now                                                     (* time.Now() *)
| Get (key : string)
| Expire (key : string) (expiration : time.Duration)
| Set_ (key value : string) (expiration : time.Duration)
| SetNX (key value : string) (expiration : time.Duration)
| Del (key : string)
| Exists_ (key : string)
| IncrBy (key : string) (value : Z)
| DecrBy (key : string) (value : Z)
| FlushAll.

Definition reply (c : call) : Type :=
  match c with
  | Now => time.Time
  | Get _ => Cmd string
  | Expire _ _ => Cmd bool
  | Set_ _ _ _ => Cmd string
  | SetNX _ _ _ => Cmd bool
  | Del _ => Cmd Z
  | Exists_ _ => Cmd bool
  | IncrBy _ _ => Cmd Z
  | DecrBy _ _ => Cmd Z
  | FlushAll => Cmd string
  end.

(** A call that goes to the backend, as opposed to the clock. *)
Definition is_backend (c : call) : bool :=
  match c with Now => false | _ => true end.

(** A backend call that can change what the store holds. *)
Definition is_write (c : call) : bool :=
  match c with
  | Now | Get _ | Exists_ _ => false
  | _ => true
  end.

Inductive Prog (A : Type) : Type :=
| Ret (a : A)
| Do (c : call) (k : reply c -> Prog A).
Arguments Ret {A} _.
Arguments Do {A} _ _.

Fixpoint bind {A B} (p : Prog A) (f : A -> Prog B) : Prog B :=
  match p with
  | Ret a => f a
  | Do c k => Do c (fun r => bind (k r) f)
  end.

Notation "'let*' x ':=' p 'in' q" := (bind p (fun x => q))
  (at level 10, x pattern, p at level 100, q at level 200, only parsing).

(** ** Running a program *)

Section Run.
Context {W : Type}.
(** What the world answers to a call, and what it becomes. *)
Variable exec : forall c : call, W -> reply c * W.

Fixpoint run {A} (p : Prog A) (w : W) : A * W * list call :=
  match p with
  | Ret a => (a, w, [])
  | Do c k =>
      let '(r, w1) := exec c w in
      let '(a, w2, l) := run (k r) w1 in
      (a, w2, c :: l)
  end.

Definition result {A} (p : Prog A) (w : W) : A := (run p w).1.1.
Definition final {A} (p : Prog A) (w : W) : W := (run p w).1.2.
Definition calls {A} (p : Prog A) (w : W) : list call := (run p w).2.
End Run.

(** ** The codec's data ([protocol.McRequest], [protocol.McResponse])

    The [protocol] package is used through these fields only.  A Go [string]
    and a [[]byte] are both byte sequences, embedded as [string]. *)

Record McRequest := mkRequest {
  Command : string;
  Key : string;
  Keys : list string;
  Value : string;
  Exptime : Z;          (* int64 *)
  Increment : Z;        (* int64 *)
  Noreply : bool
}.

(** [protocol.McValue{key, "0", []byte(value)}] *)
Record McValue := mkValue { VKey : string; VFlags : string; VData : string }.

Record McResponse := mkResponse {
  Response : string;
  Values : list McValue
}.

(** [&protocol.McResponse{}] *)
Definition McResponse0 : McResponse := {| Response := ""; Values := [] |}.

Definition set_Response (s : string) (res : McResponse) : McResponse :=
  {| Response := s; Values := Values res |}.

Definition append_Values (v : McValue) (res : McResponse) : McResponse :=
  {| Response := Response res; Values := Values res ++ [v] |}.

Definition set_Noreply (b : bool) (req : McRequest) : McRequest :=
  {| Command := Command req; Key := Key req; Keys := Keys req;
     Value := Value req; Exptime := Exptime req;
     Increment := Increment req; Noreply := b |}.

(** ** The expiration translator *)

Record ttl := mkTtl {
  secs : time.Duration;
  unlimited : bool;
  past : bool
}.

Definition ttl0 : ttl := {| secs := 0; unlimited := false; past := false |}.

Definition expirationParser (t : Z) : Prog (ttl * option error) :=
  if t =? 0 then
    Ret ({| secs := 0; unlimited := true; past := false |}, None)
  else if 2592000 <? t then
    Do Now (fun now =>
      let expire_at := time.Unix t in
      let d := time.Sub expire_at now in
      if d <=? 0 then
        Ret ({| secs := d; unlimited := false; past := true |}, None)
      else
        Ret ({| secs := d; unlimited := false; past := false |}, None))
  else if t <? 0 then
    Ret (ttl0, Some (errorString "Expiration cannot be negative"))
  else
    Ret ({| secs := Int64.mul t time.Second; unlimited := false; past := false |},
         None).

(** ** The handlers

    A handler receives the request and the response under construction,
    and returns the response as it leaves it together with its error. *)

Definition HandlerFn : Type := McRequest -> McResponse -> Prog (McResponse * option error).

(** [strconv.FormatInt(v, 10)] *)
Definition FormatInt (v : Z) : string := pretty v.

Fixpoint GetHandler_range (keys : list string) (res : McResponse)
  : Prog (McResponse * option error) :=
  match keys with
  | [] => Ret (set_Response "END" res, None)
  | key :: keys' =>
      Do (Get key) (fun r =>
        match Err r with
        | Some redis_Nil => GetHandler_range keys' res
        | Some err => Ret (res, Some err)
        | None =>
            GetHandler_range keys'
              (append_Values {| VKey := key; VFlags := "0"; VData := Val r |} res)
        end)
  end.

Definition GetHandler : HandlerFn := fun req res =>
  GetHandler_range (Keys req) res.

Definition SetHandler : HandlerFn := fun req res =>
  let key := Key req in
  let value := Value req in
  let* (exp, err) := expirationParser (Exptime req) in
  match err with
  | Some e => Ret (res, Some e)
  | None =>
      if past exp then
        Do (Expire key (secs exp)) (fun _ =>
          Ret (set_Response "STORED" res, None))
      else
        Do (Set_ key value (secs exp)) (fun r =>
          match Err r with
          | Some e => Ret (res, Some e)
          | None => Ret (set_Response "STORED" res, None)
          end)
  end.

Definition AddHandler : HandlerFn := fun req res =>
  let key := Key req in
  let value := Value req in
  let* (exp, err) := expirationParser (Exptime req) in
  match err with
  | Some e => Ret (res, Some e)
  | None =>
      Do (SetNX key value (secs exp)) (fun result =>
        match Err result with
        | Some e => Ret (res, Some e)
        | None =>
            if Val result then Ret (set_Response "STORED" res, None)
            else Ret (set_Response "NOT_STORED" res, None)
        end)
  end.

Definition DeleteHandler : HandlerFn := fun req res =>
  let key := Key req in
  Do (Del key) (fun result =>
    match Err result with
    | Some e => Ret (res, Some e)
    | None =>
        let count := Val result in
        if 0 <? count then Ret (set_Response "DELETED" res, None)
        else Ret (set_Response "NOT_FOUND" res, None)
    end).

Definition IncrHandler : HandlerFn := fun req res =>
  let key := Key req in
  let increment := Increment req in
  Do (Exists_ key) (fun exists_ =>
    if negb (Val exists_) then Ret (set_Response "NOT_FOUND" res, None)
    else
      Do (IncrBy key increment) (fun result =>
        match Err result with
        | Some e => Ret (res, Some e)
        | None => Ret (set_Response (FormatInt (Val result)) res, None)
        end)).

Definition DecrHandler : HandlerFn := fun req res =>
  let key := Key req in
  let increment := Increment req in
  Do (Exists_ key) (fun exists_ =>
    if negb (Val exists_) then Ret (set_Response "NOT_FOUND" res, None)
    else
      Do (DecrBy key increment) (fun result =>
        match Err result with
        | Some e => Ret (res, Some e)
        | None => Ret (set_Response (FormatInt (Val result)) res, None)
        end)).

Definition FlushAllHandler : HandlerFn := fun req res =>
  Do FlushAll (fun result =>
    match Err result with
    | Some e => Ret (res, Some e)
    | None => Ret (set_Response "OK" res, None)
    end).

Definition VersionHandler : HandlerFn := fun req res =>
  Ret (set_Response "VERSION redcached-0.1" res, None).

(** The handlers of this package. *)
Inductive handler : HandlerFn -> Prop :=
| handler_get : handler GetHandler
| handler_set : handler SetHandler
| handler_add : handler AddHandler
| handler_delete : handler DeleteHandler
| handler_incr : handler IncrHandler
| handler_decr : handler DecrHandler
| handler_flush_all : handler FlushAllHandler
| handler_version : handler VersionHandler.

(** ** The serve loop ([Client.Serve])

    [protocol.ReadRequest] returns a request or an error; the connection's
    input is the sequence of these results, one per call.  What reaches the
    connection is the sequence of strings written to the buffered writer,
    each of them flushed right after it is written. *)

Inductive ReadResult :=
| ReadOk (req : McRequest)       (* err == nil *)
| ReadErr (err : error).

Record Conn := mkConn {
  written : list string;     (* oldest first *)
  closes : nat               (* how many times conn.Close() ran *)
}.

Definition Conn0 : Conn := {| written := []; closes := 0 |}.

Definition WriteString (s : string) (c : Conn) : Conn :=
  {| written := written c ++ [s]; closes := closes c |}.

Definition Close (c : Conn) : Conn :=
  {| written := written c; closes := S (closes c) |}.

Definition CRLF : string :=
  String (ascii_of_nat 13) (String (ascii_of_nat 10) EmptyString).

(** How one pass through the body of the [for] ends. *)
Inductive flow :=
| Continue
| Return (err : option error).

(** How [Serve] stands once the input given to it is used up: returned, or
    inside [ReadRequest] waiting for more. *)
Inductive outcome :=
| Returned (err : option error)
| Reading.

Section Serve.
Context {W : Type}.
Variable exec : forall c : call, W -> reply c * W.
(** [strings.ToLower] and [McResponse.Protocol], the encoder. *)
Variable ToLower : string -> string.
Variable Protocol : McResponse -> string.
(** [client.methods] *)
Variable methods : gmap string HandlerFn.

Record session := mkSession {
  conn : Conn;
  world : W;
  log : list call        (* the calls made so far, oldest first *)
}.

Definition write (s : string) (st : session) : session :=
  {| conn := WriteString s (conn st); world := world st; log := log st |}.

Definition iteration (rd : ReadResult) (st : session) : flow * session :=
  match rd with
  | ReadErr (ProtocolError perr) =>
      (Continue, write ("CLIENT_ERROR " +:+ perr +:+ CRLF) st)
  | ReadErr io_EOF => (Return None, st)
  | ReadErr err => (Return (Some err), st)
  | ReadOk req =>
      let cmd := ToLower (Command req) in
      if decide (cmd = "quit") then (Return None, st)
      else
        let res := McResponse0 in
        match methods !! cmd with
        | Some fn =>
            let '(res, err, w, l) := run exec (fn req res) (world st) in
            let st := {| conn := conn st; world := w; log := log st ++ l |} in
            let res :=
              match err with
              | Some e => set_Response ("SERVER_ERROR " +:+ Error e) res
              | None => res
              end in
            if negb (Noreply req) then (Continue, write (Protocol res) st)
            else (Continue, st)
        | None =>
            let res :=
              set_Response ("ERROR not implemented cmd '" +:+ cmd +:+ "' in handler")
                           res in
            (Continue, write (Protocol res) st)
        end
  end.

(** The deferred function closes the connection when [Serve] returns. *)
Fixpoint Serve (input : list ReadResult) (st : session) : outcome * session :=
  match input with
  | [] => (Reading, st)
  | rd :: input' =>
      match iteration rd st with
      | (Continue, st') => Serve input' st'
      | (Return err, st') =>
          (Returned err,
           {| conn := Close (conn st'); world := world st'; log := log st' |})
      end
  end.
End Serve.

Arguments mkSession {W} _ _ _.
Arguments conn {W} _.
Arguments world {W} _.
Arguments log {W} _.

(** ASCII lower-casing: [strings.ToLower] on a command of ASCII bytes. *)
Definition lower_ascii (a : ascii) : ascii :=
  let n := nat_of_ascii a in
  if ((65 <=? n) && (n <=? 90))%nat then ascii_of_nat (n + 32) else a.

Fixpoint ToLower_ascii (s : string) : string :=
  match s with
  | EmptyString => EmptyString
  | String a s' => String (lower_ascii a) (ToLower_ascii s')
  end.

(** Modelled from the spec: the encoder [McResponse.Protocol] of the
    [protocol] package, which is not part of these sources.  Section 6 gives
    the wire format: one [VALUE <key> <flags> <bytes>] line and one data
    line per entry, then the status line. *)
Definition Protocol_value (v : McValue) : string :=
  "VALUE " +:+ VKey v +:+ " " +:+ VFlags v +:+ " "
    +:+ pretty (String.length (VData v)) +:+ CRLF +:+ VData v +:+ CRLF.

Definition Protocol_wire (res : McResponse) : string :=
  String.concat "" (map Protocol_value (Values res)) +:+ Response res +:+ CRLF.

(** Modelled from the spec: the dispatch table [srv.methods], built in
    [server.go], which is not part of these sources.  Section 6 lists the
    command names; each maps to the handler of that name. *)
Definition default_methods : gmap string HandlerFn :=
  <["get" := GetHandler]> (
  <["set" := SetHandler]> (
  <["add" := AddHandler]> (
  <["delete" := DeleteHandler]> (
  <["incr" := IncrHandler]> (
  <["decr" := DecrHandler]> (
  <["flush_all" := FlushAllHandler]> (
  <["version" := VersionHandler]> ∅))))))).

(** ** A reference backend

    An in-memory store that answers the calls the way a Redis server does
    through the client: a key holds a value and, possibly, a time to live.
    It is used to run the handlers on concrete inputs; the theorems about
    the handlers hold for every implementation of the calls. *)

Module Mem.

Record world := mkWorld {
  clock : time.Time;
  up : bool;                                         (* the server is reachable *)
  store : gmap string (string * option time.Duration)
}.

Definition refused {V} (zero : V) : Cmd V :=
  mkCmd zero (Some (errorString "dial tcp: connection refused")).

Definition ok {V} (v : V) : Cmd V := mkCmd v None.

Definition with_store (s : gmap string (string * option time.Duration)) (w : world) : world :=
  {| clock := clock w; up := up w; store := s |}.

Definition parseInt (s : string) : option Z :=
  if decide (s = "") then None
  else Z.of_int <$> DecimalString.NilEmpty.int_of_string s.

Definition expiry (d : time.Duration) : option time.Duration :=
  if d =? 0 then None else Some d.

Definition set (key value : string) (d : time.Duration) (w : world) : Cmd string * world :=
  if d <? 0 then (mkCmd "" (Some (errorString "ERR invalid expire time in set")), w)
  else (ok "OK", with_store (<[key := (value, expiry d)]> (store w)) w).

Definition incr (key : string) (n : Z) (w : world) : Cmd Z * world :=
  let old :=
    match store w !! key with
    | Some (v, e) => (parseInt v, e)
    | None => (Some 0, None)
    end in
  match old with
  | (Some v, e) =>
      if decide (Int64.min_int <= v + n <= Int64.max_int) then
        (ok (v + n), with_store (<[key := (pretty (v + n), e)]> (store w)) w)
      else
        (mkCmd 0 (Some (errorString "ERR increment or decrement would overflow")), w)
  | (None, _) =>
      (mkCmd 0 (Some (errorString "ERR value is not an integer or out of range")), w)
  end.

Definition exec (c : call) : world -> reply c * world :=
  match c as c' return world -> reply c' * world with
  | Now => fun w => (clock w, w)
  | Get key => fun w =>
      if up w then
        match store w !! key with
        | Some (v, _) => (ok v, w)
        | None => (mkCmd "" (Some redis_Nil), w)
        end
      else (refused "", w)
  | Expire key d => fun w =>
      if up w then
        match store w !! key with
        | Some (v, _) =>
            if d <=? 0 then (ok true, with_store (delete key (store w)) w)
            else (ok true, with_store (<[key := (v, Some d)]> (store w)) w)
        | None => (ok false, w)
        end
      else (refused false, w)
  | Set_ key value d => fun w =>
      if up w then set key value d w else (refused "", w)
  | SetNX key value d => fun w =>
      if up w then
        match store w !! key with
        | Some _ => (ok false, w)
        | None =>
            let '(r, w') := set key value d w in
            (mkCmd (bool_decide (Err r = None)) (Err r), w')
        end
      else (refused false, w)
  | Del key => fun w =>
      if up w then
        match store w !! key with
        | Some _ => (ok 1, with_store (delete key (store w)) w)
        | None => (ok 0, w)
        end
      else (refused 0, w)
  | Exists_ key => fun w =>
      if up w then (ok (bool_decide (is_Some (store w !! key))), w)
      else (refused false, w)
  | IncrBy key n => fun w =>
      if up w then incr key n w else (refused 0, w)
  | DecrBy key n => fun w =>
      if up w then incr key (- n) w else (refused 0, w)
  | FlushAll => fun w =>
      if up w then (ok "OK", with_store ∅ w) else (refused "", w)
  end.

(** An instant of 2023 (1,700,000,000 seconds after the epoch). *)
Definition in_2023 : time.Time :=
  {| time.sec := time.unixToInternal + 1700000000; time.nsec := 0 |}.

Definition empty : world := {| clock := in_2023; up := true; store := ∅ |}.
(** A store holding the keys [A] and [C]. *)
Definition two_keys : world :=
  {| clock := in_2023; up := true;
     store := <["A" := ("1", None)]> (<["C" := ("3", None)]> ∅) |}.
(** The same store a year later. *)
Definition later : world :=
  {| clock := {| time.sec := time.unixToInternal + 1731536000; time.nsec := 5 |};
     up := true; store := ∅ |}.
Definition down : world := {| clock := in_2023; up := false; store := ∅ |}.

End Mem.

(** A store holding a counter. *)
Definition counter_world : Mem.world :=
  {| Mem.clock := Mem.in_2023; Mem.up := true;
     Mem.store := <["hits" := ("41", None)]> ∅ |}.

(** INCR of the counter by one. *)
Definition incr_hits : McRequest :=
  {| Command := "incr"; Key := "hits"; Keys := ["hits"]; Value := "";
     Exptime := 0; Increment := 1; Noreply := false |}.

(** A GET of three keys. *)
Definition get_ABC : McRequest :=
  {| Command := "get"; Key := ""; Keys := ["A"; "B"; "C"]; Value := "";
     Exptime := 0; Increment := 0; Noreply := false |}.

(** The session a connection starts with. *)
Definition session0 (w : Mem.world) : session :=
  {| conn := Conn0; world := w; log := [] |}.

(** A request with every field at its zero value but those given. *)
Definition request (cmd key value : string) (exptime : Z) : McRequest :=
  {| Command := cmd; Key := key; Keys := [key]; Value := value;
     Exptime := exptime; Increment := 0; Noreply := false |}.

(** ** Definitions used in the statements *)

(** The nearest [Duration] to a mathematical count of nanoseconds. *)
Definition saturate (z : Z) : time.Duration :=
  if z <? time.minDuration then time.minDuration
  else if time.maxDuration <? z then time.maxDuration
  else z.

(** An instant as a count of nanoseconds since year 1. *)
Definition nanos (t : time.Time) : Z := time.sec t * 1000000000 + time.nsec t.

Definition normal (t : time.Time) : Prop := 0 <= time.nsec t < 1000000000.

(** The largest [raw] for which [time.Unix(raw, 0)] does not wrap. *)
Definition max_unix : Z := Int64.max_int - time.unixToInternal.

(** What the backend answers to [Get] on a key, and the world after it. *)
Definition Get_reply {W} (exec : forall c : call, W -> reply c * W)
           (key : string) (w : W) : Cmd string := (exec (Get key) w).1.

Definition Get_world {W} (exec : forall c : call, W -> reply c * W)
           (key : string) (w : W) : W := (exec (Get key) w).2.

(** The same for each key of a list in turn. *)
Fixpoint Get_replies {W} (exec : forall c : call, W -> reply c * W)
         (keys : list string) (w : W) : list (string * Cmd string) :=
  match keys with
  | [] => []
  | key :: keys' =>
      (key, Get_reply exec key w) :: Get_replies exec keys' (Get_world exec key w)
  end.

Fixpoint after_Gets {W} (exec : forall c : call, W -> reply c * W)
         (keys : list string) (w : W) : W :=
  match keys with
  | [] => w
  | key :: keys' => after_Gets exec keys' (Get_world exec key w)
  end.

(** A reply that is a backend failure: an error other than [redis.Nil]. *)
Definition failed {V} (r : Cmd V) : bool :=
  match Err r with
  | Some redis_Nil => false
  | Some _ => true
  | None => false
  end.

(** The value entry of a key the backend holds; none for an absent key. *)
Definition entry (kr : string * Cmd string) : option McValue :=
  match Err kr.2 with
  | None => Some {| VKey := kr.1; VFlags := "0"; VData := Val kr.2 |}
  | Some _ => None
  end.

(** The events that end the serve loop, with what [Serve] then returns:
    end of stream and [quit] return no error, any decode error other than
    a protocol error is returned; no other event ends the loop. *)
Definition exit_of (ToLower : string -> string) (rd : ReadResult)
  : option (option error) :=
  match rd with
  | ReadErr io_EOF => Some None
  | ReadErr (ProtocolError _) => None
  | ReadErr err => Some (Some err)
  | ReadOk req =>
      if decide (ToLower (Command req) = "quit") then Some None else None
  end.

(** The key a backend call is about, if it is about one. *)
Definition key_of (c : call) : option string :=
  match c with
  | Get k | Expire k _ | Set_ k _ _ | SetNX k _ _ | Del k | Exists_ k
  | IncrBy k _ | DecrBy k _ => Some k
  | Now | FlushAll => None
  end.

(** The status lines a handler sets from a fixed text. *)
Definition fixed_status : list string :=
  ["END"; "STORED"; "NOT_STORED"; "DELETED"; "NOT_FOUND"; "OK";
   "VERSION redcached-0.1"].

(** The handlers other than GET. *)
Definition plain_handlers : list HandlerFn :=
  [SetHandler; AddHandler; DeleteHandler; IncrHandler; DecrHandler;
   FlushAllHandler; VersionHandler].

(** The handlers that take one key. *)
Definition keyed_handlers : list HandlerFn :=
  [SetHandler; AddHandler; DeleteHandler; IncrHandler; DecrHandler].

(** The decode results the serve loop answers with a write: a protocol
    error, a command that is not in the table, and a command that is in the
    table unless the request says no reply. *)
Definition answered (ToLower : string -> string)
           (methods : gmap string HandlerFn) (rd : ReadResult) : bool :=
  match rd with
  | ReadErr (ProtocolError _) => true
  | ReadErr _ => false
  | ReadOk req =>
      if decide (ToLower (Command req) = "quit") then false
      else
        match methods !! ToLower (Command req) with
        | Some _ => negb (Noreply req)
        | None => true
        end
  end.

(** The decode results that reach a handler. *)
Definition dispatched (ToLower : string -> string)
           (methods : gmap string HandlerFn) (rd : ReadResult) : bool :=
  match rd with
  | ReadErr _ => false
  | ReadOk req =>
      if decide (ToLower (Command req) = "quit") then false
      else
        match methods !! ToLower (Command req) with
        | Some _ => true
        | None => false
        end
  end.

(** The decode results the loop gets through: those before the first one
    that ends it. *)
Fixpoint served (ToLower : string -> string) (input : list ReadResult)
  : list ReadResult :=
  match input with
  | [] => []
  | rd :: input' =>
      match exit_of ToLower rd with
      | Some _ => []
      | None => rd :: served ToLower input'
      end
  end.

(** * Properties *)

(** ** Arithmetic of [int64] and of [time] *)

Ltac int64_consts :=
  unfold max_unix, time.minDuration, time.maxDuration, time.Second,
    time.unixToInternal, Int64.add, Int64.sub, Int64.mul, Int64.in_range,
    Int64.min_int, Int64.max_int in *;
  change (2 ^ 63) with 9223372036854775808 in *;
  change (2 ^ 64) with 18446744073709551616 in *;
  change (2 ^ 62) with 4611686018427387904 in *;
  change ((1969 * 365 + 1969 / 4 - 1969 / 100 + 1969 / 400) * 86400)
    with 62135596800 in *.

Lemma wrap_in_range z : Int64.in_range (Int64.wrap z).
Proof.
  unfold Int64.wrap. int64_consts. Z.to_euclidean_division_equations. lia.
Qed.

Lemma wrap_congr z : exists k, Int64.wrap z = z + k * 2 ^ 64.
Proof.
  exists (- ((z + 2 ^ 63) / 2 ^ 64)). unfold Int64.wrap.
  int64_consts. Z.to_euclidean_division_equations. lia.
Qed.

Lemma wrap_id z : Int64.in_range z -> Int64.wrap z = z.
Proof.
  unfold Int64.wrap. int64_consts. intros.
  Z.to_euclidean_division_equations. lia.
Qed.

Lemma Add_nanos u d :
  time.wall_clock u -> Int64.in_range d ->
  nanos (time.Add u d) = nanos u + d /\ normal (time.Add u d).
Proof.
  intros [Hu Hn] Hd. unfold time.Add, nanos, normal.
  assert (Hq : -9223372037 <= Z.quot d 1000000000 <= 9223372037)
    by (int64_consts; Z.to_euclidean_division_equations; lia).
  assert (Hr : d = 1000000000 * Z.quot d 1000000000 + Z.rem d 1000000000
               /\ -1000000000 < Z.rem d 1000000000 < 1000000000)
    by (Z.to_euclidean_division_equations; lia).
  destruct Hr as [Hr Hr'].
  set (q := Z.quot d 1000000000) in *. set (r := Z.rem d 1000000000) in *.
  clearbody q r.
  unfold Int64.add, Int64.sub.
  rewrite (wrap_id (time.sec u + q)) by (int64_consts; lia).
  destruct (Z.leb_spec 1000000000 (time.nsec u + r)); simpl.
  - rewrite wrap_id by (int64_consts; lia). lia.
  - destruct (Z.ltb_spec (time.nsec u + r) 0); simpl.
    + rewrite wrap_id by (int64_consts; lia). lia.
    + lia.
Qed.

Lemma Equal_nanos a b :
  normal a -> normal b -> time.Equal a b = true <-> nanos a = nanos b.
Proof.
  unfold normal, time.Equal, nanos. intros Ha Hb.
  rewrite andb_true_iff, !Z.eqb_eq. lia.
Qed.

Lemma Before_nanos a b :
  normal a -> normal b -> time.Before a b = true <-> nanos a < nanos b.
Proof.
  unfold normal, time.Before, nanos. intros Ha Hb.
  rewrite orb_true_iff, andb_true_iff, !Z.ltb_lt, Z.eqb_eq. lia.
Qed.

(** [Sub] is the exact difference when it fits in a [Duration] and
    saturates otherwise. *)
Lemma Sub_saturate t u :
  Int64.in_range (time.sec t) -> normal t -> time.wall_clock u ->
  time.Sub t u = saturate (nanos t - nanos u).
Proof.
  intros Ht Hn Hu. unfold time.Sub.
  set (d := Int64.add _ _).
  assert (Hd : Int64.in_range d) by apply wrap_in_range.
  assert (Hk : exists k, d = nanos t - nanos u + k * 2 ^ 64).
  { subst d. unfold Int64.add, Int64.mul, Int64.sub, nanos, time.Second.
    destruct (wrap_congr (time.sec t - time.sec u)) as [k1 ->].
    destruct (wrap_congr ((time.sec t - time.sec u + k1 * 2 ^ 64) * 1000000000))
      as [k2 ->].
    destruct (wrap_congr ((time.sec t - time.sec u + k1 * 2 ^ 64) * 1000000000
                          + k2 * 2 ^ 64 + (time.nsec t - time.nsec u)))
      as [k3 ->].
    exists (k1 * 1000000000 + k2 + k3). lia. }
  destruct Hk as [k Hk]. clearbody d.
  destruct (Add_nanos u d Hu Hd) as [Ha Hna].
  pose proof (Equal_nanos (time.Add u d) t Hna Hn) as He.
  pose proof (Before_nanos t u Hn (proj2 Hu)) as Hb.
  unfold saturate.
  destruct (time.Equal (time.Add u d) t).
  - assert (nanos (time.Add u d) = nanos t) by (apply He; reflexivity).
    assert (E : d = nanos t - nanos u) by lia.
    rewrite E in Hd |- *. clear Hk E.
    destruct (Z.ltb_spec (nanos t - nanos u) time.minDuration);
      [int64_consts; lia|].
    destruct (Z.ltb_spec time.maxDuration (nanos t - nanos u));
      [int64_consts; lia|]. reflexivity.
  - assert (nanos (time.Add u d) <> nanos t)
      by (intros E; apply He in E; discriminate).
    assert (k <> 0) by (intros ->; lia).
    destruct (time.Before t u).
    + assert (nanos t < nanos u) by (apply Hb; reflexivity).
      destruct (Z.ltb_spec (nanos t - nanos u) time.minDuration); [reflexivity|].
      exfalso. int64_consts. lia.
    + assert (~ nanos t < nanos u) by (intros E; apply Hb in E; discriminate).
      destruct (Z.ltb_spec (nanos t - nanos u) time.minDuration);
        [exfalso; int64_consts; lia|].
      destruct (Z.ltb_spec time.maxDuration (nanos t - nanos u)); [reflexivity|].
      exfalso. int64_consts. lia.
Qed.

(** The duration from the clock's reading to [time.Unix(raw, 0)]. *)
Lemma Sub_Unix raw now :
  Int64.in_range raw -> 0 <= raw -> time.wall_clock now ->
  time.Sub (time.Unix raw) now =
    if raw <=? max_unix then saturate (raw * 1000000000 - time.unixNano now)
    else time.minDuration.
Proof.
  intros Hr H0 Hn.
  rewrite Sub_saturate; [| apply wrap_in_range | unfold normal; simpl; lia | exact Hn].
  destruct Hn as [Hs Hns].
  unfold nanos, time.unixNano, time.Unix, Int64.add. cbn [time.sec time.nsec].
  destruct (Z.leb_spec raw max_unix) as [Hle|Hgt].
  - rewrite wrap_id by (int64_consts; lia). f_equal. lia.
  - destruct (wrap_congr (raw + time.unixToInternal)) as [k Hk].
    pose proof (wrap_in_range (raw + time.unixToInternal)) as Hw.
    rewrite Hk in Hw |- *.
    assert (k = -1) by (int64_consts; lia). subst k.
    unfold saturate.
    destruct (Z.ltb_spec ((raw + time.unixToInternal + -1 * 2 ^ 64) * 1000000000 + 0
                          - (time.sec now * 1000000000 + time.nsec now))
                         time.minDuration); [reflexivity|].
    exfalso. int64_consts. lia.
Qed.

Lemma run_bind {W A B} (exec : forall c : call, W -> reply c * W)
      (p : Prog A) (f : A -> Prog B) (w : W) :
  run exec (bind p f) w =
    let '(a, w1, l1) := run exec p w in
    let '(b, w2, l2) := run exec (f a) w1 in
    (b, w2, l1 ++ l2).
Proof.
  revert w. induction p as [a | c k IH]; intros w; simpl.
  - destruct (run exec (f a) w) as [[b w2] l2]. reflexivity.
  - destruct (exec c w) as [r w1]. rewrite IH.
    destruct (run exec (k r) w1) as [[a w2] l1].
    destruct (run exec (f a) w2) as [[b w3] l2]. reflexivity.
Qed.


(** ** The expiration translator *)

Section Translator.
Context {W : Type}.
Variable exec : forall c : call, W -> reply c * W.

(** What the translator returns, by the four ranges of its input. *)
Lemma expirationParser_run (raw : Z) (w : W) :
  run exec (expirationParser raw) w =
    if raw =? 0 then
      (({| secs := 0; unlimited := true; past := false |}, None), w, [])
    else if 2592000 <? raw then
      let d := time.Sub (time.Unix raw) (exec Now w).1 in
      (({| secs := d; unlimited := false; past := d <=? 0 |}, None),
       (exec Now w).2, [Now])
    else if raw <? 0 then
      ((ttl0, Some (errorString "Expiration cannot be negative")), w, [])
    else
      (({| secs := Int64.mul raw time.Second; unlimited := false; past := false |},
        None), w, []).
Proof.
  unfold expirationParser.
  destruct (raw =? 0); [reflexivity|].
  destruct (2592000 <? raw).
  - simpl. destruct (exec Now w) as [now w1]. simpl.
    destruct (time.Sub (time.Unix raw) now <=? 0); reflexivity.
  - destruct (raw <? 0); reflexivity.
Qed.
End Translator.




(** C10: for every input at or below the 30-day threshold (zero, negative
    or relative seconds) the translator makes no call at all, so it does not
    read the clock, leaves the world as it is, and returns the same result
    in any two worlds, whatever their clocks show; an input above the
    threshold reads the clock, once. *)
Theorem expirationParser_clock_independent {W1 W2}
        (exec1 : forall c : call, W1 -> reply c * W1)
        (exec2 : forall c : call, W2 -> reply c * W2)
        (w1 : W1) (w2 : W2) (raw : Z) :
  raw <= 2592000 ->
  result exec1 (expirationParser raw) w1 = result exec2 (expirationParser raw) w2
  /\ calls exec1 (expirationParser raw) w1 = []
  /\ final exec1 (expirationParser raw) w1 = w1
  /\ (forall raw' : Z, 2592000 < raw' ->
        calls exec1 (expirationParser raw') w1 = [Now]).
Proof.
  intros Hle. unfold result, calls, final.
  rewrite !expirationParser_run.
  destruct (Z.ltb_spec 2592000 raw) as [|_]; [lia|].
  repeat split.
  - destruct (raw =? 0); [reflexivity|]. destruct (raw <? 0); reflexivity.
  - destruct (raw =? 0); [reflexivity|]. destruct (raw <? 0); reflexivity.
  - destruct (raw =? 0); [reflexivity|]. destruct (raw <? 0); reflexivity.
  - intros raw' Hgt. rewrite expirationParser_run.
    destruct (Z.eqb_spec raw' 0); [lia|].
    destruct (Z.ltb_spec 2592000 raw'); [reflexivity|lia].
Qed.

Lemma expirationParser_clock_independent_witness :
  86400 <= 2592000 /\
  result Mem.exec (expirationParser 86400) Mem.empty
    = result Mem.exec (expirationParser 86400) Mem.later.
Proof.
  split; [lia|].
  exact (proj1 (expirationParser_clock_independent
                  Mem.exec Mem.exec Mem.empty Mem.later 86400 ltac:(lia))).
Defined.

(** What a run of the translator can be: its calls never reach the
    backend, an error comes without any call, a past TTL carries a
    non-positive duration and an unlimited one no duration. *)
Lemma expirationParser_inv {W} (exec : forall c : call, W -> reply c * W)
      (raw : Z) (w w1 : W) (exp : ttl) (err : option error) (l1 : list call) :
  run exec (expirationParser raw) w = ((exp, err), w1, l1) ->
  Forall (fun c => is_backend c = false) l1
  /\ (err <> None -> w1 = w /\ l1 = [])
  /\ (past exp = true -> secs exp <= 0)
  /\ (unlimited exp = true -> secs exp = 0 /\ past exp = false).
Proof.
  rewrite expirationParser_run.
  destruct (raw =? 0).
  { intros [= <- <- <- <-]. repeat split; auto; try discriminate; try congruence. }
  destruct (2592000 <? raw).
  { cbv zeta. intros [= <- <- <- <-]. cbn [past secs unlimited].
    repeat split; try discriminate; try congruence.
    - repeat constructor.
    - intros H. apply Z.leb_le, H. }
  destruct (raw <? 0); intros [= <- <- <- <-]; cbn [past secs unlimited];
    repeat split; auto; try discriminate; try congruence.
Qed.

(** ** SET and ADD *)

Section Storing.
Context {W : Type}.
Variable exec : forall c : call, W -> reply c * W.

(** C2: [SetHandler], by the outcome of the translation.  A translation
    error is returned with no call made.  When the TTL is past, the
    handler makes one backend call, [Expire] on the key with the
    non-positive duration, makes no [Set] call, and reports [STORED]
    whatever that call answers.  Otherwise it makes one backend call,
    [Set] with the key, the value and the duration (zero, which the
    client sends as no expiry, when the TTL is unlimited), and reports
    [STORED] when the call succeeds; the call's error is returned
    otherwise. *)
Theorem SetHandler_spec (req : McRequest) (res : McResponse) (w w1 : W)
        (exp : ttl) (err : option error) (l1 : list call) :
  run exec (expirationParser (Exptime req)) w = ((exp, err), w1, l1) ->
  Forall (fun c => is_backend c = false) l1 /\
  match err with
  | Some e => run exec (SetHandler req res) w = ((res, Some e), w, [])
  | None =>
      if past exp then
        secs exp <= 0 /\
        run exec (SetHandler req res) w =
          ((set_Response "STORED" res, None),
           (exec (Expire (Key req) (secs exp)) w1).2,
           l1 ++ [Expire (Key req) (secs exp)])
      else
        (unlimited exp = true -> secs exp = 0) /\
        run exec (SetHandler req res) w =
          (match Err (exec (Set_ (Key req) (Value req) (secs exp)) w1).1 with
           | Some e => (res, Some e)
           | None => (set_Response "STORED" res, None)
           end,
           (exec (Set_ (Key req) (Value req) (secs exp)) w1).2,
           l1 ++ [Set_ (Key req) (Value req) (secs exp)])
  end.
Proof.
  intros Htr.
  destruct (expirationParser_inv exec _ _ _ _ _ _ Htr) as (Hl & Herr & Hpast & Hunl).
  split; [exact Hl|].
  unfold SetHandler. rewrite run_bind, Htr.
  destruct err as [e|].
  - destruct Herr as [-> ->]; [discriminate|]. reflexivity.
  - destruct (past exp) eqn:Hp.
    + split; [auto|]. simpl.
      destruct (exec (Expire (Key req) (secs exp)) w1) as [r w2]. reflexivity.
    + split; [intros H; apply Hunl, H|]. simpl.
      destruct (exec (Set_ (Key req) (Value req) (secs exp)) w1) as [r w2].
      simpl. destruct (Err r); reflexivity.
Qed.

End Storing.

(** ** GET *)

Section Getting.
Context {W : Type}.
Variable exec : forall c : call, W -> reply c * W.

Lemma GetHandler_range_cons (key : string) (keys : list string)
      (res : McResponse) (w : W) :
  run exec (GetHandler_range (key :: keys) res) w =
    let r := Get_reply exec key w in
    let w1 := Get_world exec key w in
    match Err r with
    | Some redis_Nil =>
        let '(a, w2, l) := run exec (GetHandler_range keys res) w1 in
        (a, w2, Get key :: l)
    | Some err => ((res, Some err), w1, [Get key])
    | None =>
        let '(a, w2, l) :=
          run exec (GetHandler_range keys
                      (append_Values {| VKey := key; VFlags := "0"; VData := Val r |} res))
              w1 in
        (a, w2, Get key :: l)
    end.
Proof.
  unfold Get_reply, Get_world. simpl.
  destruct (exec (Get key) w) as [r w1]. simpl.
  destruct (Err r) as [[]|]; reflexivity.
Qed.

Lemma entry_present (key : string) (r : Cmd string)
      (rs : list (string * Cmd string)) :
  Err r = None ->
  omap entry ((key, r) :: rs)
    = {| VKey := key; VFlags := "0"; VData := Val r |} :: omap entry rs.
Proof. intros H. cbn. unfold entry at 1. cbn. rewrite H. reflexivity. Qed.

Lemma entry_absent (key : string) (r : Cmd string) (e : error)
      (rs : list (string * Cmd string)) :
  Err r = Some e -> omap entry ((key, r) :: rs) = omap entry rs.
Proof. intros H. cbn. unfold entry at 1. cbn. rewrite H. reflexivity. Qed.

Lemma failed_false (r : Cmd string) :
  failed r = false -> Err r = None \/ Err r = Some redis_Nil.
Proof. unfold failed. destruct (Err r) as [[]|]; auto; discriminate. Qed.

Lemma GetHandler_range_all (keys : list string) (res : McResponse) (w : W) :
  Forall (fun kr => failed kr.2 = false) (Get_replies exec keys w) ->
  run exec (GetHandler_range keys res) w =
    (({| Response := "END";
         Values := Values res ++ omap entry (Get_replies exec keys w) |}, None),
     after_Gets exec keys w, Get <$> keys).
Proof.
  revert res w. induction keys as [|key keys IH]; intros res w Hok.
  - simpl. unfold set_Response. rewrite app_nil_r. reflexivity.
  - rewrite GetHandler_range_cons. cbn [Get_replies after_Gets] in *.
    apply Forall_cons in Hok as [Hr Hrs]. cbv zeta.
    destruct (failed_false (Get_reply exec key w) Hr) as [E|E]; rewrite E.
    + rewrite entry_present by exact E.
      rewrite IH by assumption. cbn [append_Values Values].
      rewrite <- app_assoc. reflexivity.
    + rewrite (entry_absent _ _ _ _ E).
      rewrite IH by assumption. reflexivity.
Qed.

Lemma GetHandler_range_fails (keys : list string) (res : McResponse) (w : W)
      (i : nat) (k : string) (r : Cmd string) (e : error) :
  Get_replies exec keys w !! i = Some (k, r) ->
  Err r = Some e -> e <> redis_Nil ->
  Forall (fun kr => failed kr.2 = false) (take i (Get_replies exec keys w)) ->
  run exec (GetHandler_range keys res) w =
    (({| Response := Response res;
         Values := Values res ++ omap entry (take i (Get_replies exec keys w)) |},
      Some e),
     after_Gets exec (take (S i) keys) w, Get <$> take (S i) keys).
Proof.
  revert res w i. induction keys as [|key keys IH]; intros res w i Hi He Hne Hok.
  - discriminate.
  - rewrite GetHandler_range_cons. cbn [Get_replies after_Gets] in *.
    destruct i as [|i].
    + injection Hi as Hk Hr. subst k r. cbv zeta. rewrite He.
      destruct e; try congruence; destruct res; simpl; rewrite app_nil_r;
        reflexivity.
    + change (Get_replies exec keys (Get_world exec key w) !! i = Some (k, r)) in Hi.
      rewrite firstn_cons in Hok |- *.
      apply Forall_cons in Hok as [Hr Hrs]. cbv zeta.
      destruct (failed_false (Get_reply exec key w) Hr) as [E|E]; rewrite E.
      * rewrite entry_present by exact E.
        rewrite (IH _ _ i) by assumption. cbn [append_Values Values Response].
        rewrite <- app_assoc. reflexivity.
      * rewrite (entry_absent _ _ _ _ E).
        rewrite (IH _ _ i) by assumption. reflexivity.
Qed.

(** C4: [GetHandler] asks the backend for the keys in the order of the
    request.  When no key fails, every key is asked for, the response
    holds one entry (key, "0", bytes) per key the backend holds, in that
    order and after the entries it held before, none for an absent key,
    its status line is [END], and there is no error.  When the backend
    fails on a key, the keys after it are not asked for, the entries of
    the keys before it stay in the response, the status line is left as
    it was, and the backend's error is returned. *)
Theorem GetHandler_spec (req : McRequest) (res : McResponse) (w : W) :
  (Forall (fun kr => failed kr.2 = false) (Get_replies exec (Keys req) w) ->
     run exec (GetHandler req res) w =
       (({| Response := "END";
            Values := Values res ++ omap entry (Get_replies exec (Keys req) w) |},
         None),
        after_Gets exec (Keys req) w, Get <$> Keys req))
  /\ (forall (i : nat) (k : string) (r : Cmd string) (e : error),
        Get_replies exec (Keys req) w !! i = Some (k, r) ->
        Err r = Some e -> e <> redis_Nil ->
        Forall (fun kr => failed kr.2 = false)
               (take i (Get_replies exec (Keys req) w)) ->
        run exec (GetHandler req res) w =
          (({| Response := Response res;
               Values := Values res
                         ++ omap entry (take i (Get_replies exec (Keys req) w)) |},
            Some e),
           after_Gets exec (take (S i) (Keys req)) w,
           Get <$> take (S i) (Keys req))).
Proof.
  split.
  - apply GetHandler_range_all.
  - intros i k r e. apply GetHandler_range_fails.
Qed.
End Getting.

(** ** INCR and DECR *)

Section Counting.
Context {W : Type}.
Variable exec : forall c : call, W -> reply c * W.

Lemma IncrHandler_run (req : McRequest) (res : McResponse) (w : W) :
  run exec (IncrHandler req res) w =
    let ex := exec (Exists_ (Key req)) w in
    if negb (Val ex.1) then
      ((set_Response "NOT_FOUND" res, None), ex.2, [Exists_ (Key req)])
    else
      let r := exec (IncrBy (Key req) (Increment req)) ex.2 in
      (match Err r.1 with
       | Some e => (res, Some e)
       | None => (set_Response (FormatInt (Val r.1)) res, None)
       end, r.2, [Exists_ (Key req); IncrBy (Key req) (Increment req)]).
Proof.
  unfold IncrHandler. simpl.
  destruct (exec (Exists_ (Key req)) w) as [ex w1]. simpl.
  destruct (Val ex); simpl; [|reflexivity].
  destruct (exec (IncrBy (Key req) (Increment req)) w1) as [r w2]. simpl.
  destruct (Err r); reflexivity.
Qed.

Lemma DecrHandler_run (req : McRequest) (res : McResponse) (w : W) :
  run exec (DecrHandler req res) w =
    let ex := exec (Exists_ (Key req)) w in
    if negb (Val ex.1) then
      ((set_Response "NOT_FOUND" res, None), ex.2, [Exists_ (Key req)])
    else
      let r := exec (DecrBy (Key req) (Increment req)) ex.2 in
      (match Err r.1 with
       | Some e => (res, Some e)
       | None => (set_Response (FormatInt (Val r.1)) res, None)
       end, r.2, [Exists_ (Key req); DecrBy (Key req) (Increment req)]).
Proof.
  unfold DecrHandler. simpl.
  destruct (exec (Exists_ (Key req)) w) as [ex w1]. simpl.
  destruct (Val ex); simpl; [|reflexivity].
  destruct (exec (DecrBy (Key req) (Increment req)) w1) as [r w2]. simpl.
  destruct (Err r); reflexivity.
Qed.

(** C5: when the backend's existence check says the key does not exist,
    [IncrHandler] and [DecrHandler] report [NOT_FOUND] without error and
    make no other call than that check: no [IncrBy] or [DecrBy] reaches
    the backend, the log holds no writing call, and the world is the one
    the check itself leaves; with a check that reads only, the world is
    unchanged, so the key stays absent and everything else stays as it
    was. *)
Theorem IncrDecr_missing_key (req : McRequest) (res : McResponse) (w : W)
        (h : HandlerFn) :
  h = IncrHandler \/ h = DecrHandler ->
  Val (exec (Exists_ (Key req)) w).1 = false ->
  result exec (h req res) w = (set_Response "NOT_FOUND" res, None)
  /\ calls exec (h req res) w = [Exists_ (Key req)]
  /\ Forall (fun c => is_write c = false) (calls exec (h req res) w)
  /\ final exec (h req res) w = (exec (Exists_ (Key req)) w).2
  /\ ((exec (Exists_ (Key req)) w).2 = w -> final exec (h req res) w = w).
Proof.
  intros Hh Hex. unfold result, calls, final.
  destruct Hh as [-> | ->];
    [rewrite IncrHandler_run | rewrite DecrHandler_run];
    cbv zeta; rewrite Hex; cbn [negb fst snd];
    (repeat split; [repeat constructor | auto]).
Qed.
End Counting.

(** On the reference backend: INCR or DECR on a key the store does not
    hold leaves the whole world as it was, whereas the backend's own
    [IncrBy] would have created the key. *)
Lemma Mem_IncrDecr_missing_key (req : McRequest) (res : McResponse)
      (w : Mem.world) (h : HandlerFn) :
  h = IncrHandler \/ h = DecrHandler ->
  Mem.store w !! Key req = None ->
  result Mem.exec (h req res) w = (set_Response "NOT_FOUND" res, None)
  /\ final Mem.exec (h req res) w = w.
Proof.
  intros Hh Hk.
  assert (Hv : Val (Mem.exec (Exists_ (Key req)) w).1 = false).
  { simpl. destruct (Mem.up w); [|reflexivity]. simpl.
    rewrite Hk. apply bool_decide_eq_false_2. intros [? ?]. discriminate. }
  assert (Hw : (Mem.exec (Exists_ (Key req)) w).2 = w).
  { simpl. destruct (Mem.up w); reflexivity. }
  unfold result, final.
  destruct Hh as [-> | ->];
    [rewrite IncrHandler_run | rewrite DecrHandler_run];
    cbv zeta; rewrite Hv; cbn [negb fst snd]; (split; [reflexivity | exact Hw]).
Qed.

Lemma Mem_IncrBy_creates (key : string) (n : Z) (w : Mem.world) :
  Mem.up w = true -> Mem.store w !! key = None -> Int64.in_range n ->
  Mem.store (Mem.exec (IncrBy key n) w).2 !! key = Some (pretty n, None).
Proof.
  intros Hup Hk Hn. simpl. rewrite Hup. unfold Mem.incr. rewrite Hk.
  rewrite Z.add_0_l. unfold Int64.in_range in Hn.
  rewrite decide_True by exact Hn. simpl. apply lookup_insert_eq.
Qed.

Lemma IncrDecr_missing_key_witness :
  Val (Mem.exec (Exists_ "hits") Mem.empty).1 = false /\
  run Mem.exec (IncrHandler (request "incr" "hits" "" 0) McResponse0) Mem.empty
    = (({| Response := "NOT_FOUND"; Values := [] |}, None), Mem.empty,
       [Exists_ "hits"]).
Proof.
  split; [reflexivity|].
  destruct (IncrDecr_missing_key Mem.exec (request "incr" "hits" "" 0)
              McResponse0 Mem.empty IncrHandler (or_introl eq_refl) eq_refl)
    as (Hres & Hcalls & _ & Hfin & _).
  unfold result, calls, final in *.
  destruct (run Mem.exec (IncrHandler (request "incr" "hits" "" 0) McResponse0)
              Mem.empty) as [[a w'] l].
  simpl in *. subst. reflexivity.
Defined.

(** ** The serve loop *)

Lemma handler_ignores_Noreply (fn : HandlerFn) (b : bool)
      (req : McRequest) (res : McResponse) :
  handler fn -> fn (set_Noreply b req) res = fn req res.
Proof. destruct 1; reflexivity. Qed.

Section Serving.
Context {W : Type}.
Variable exec : forall c : call, W -> reply c * W.
Variable ToLower : string -> string.
Variable Protocol : McResponse -> string.
Variable methods : gmap string HandlerFn.

Local Abbreviation iter := (iteration exec ToLower Protocol methods).
Local Abbreviation serve := (Serve exec ToLower Protocol methods).

(** One pass on a request that is dispatched to a handler. *)
Lemma iteration_dispatched (req : McRequest) (fn : HandlerFn) (st : session) :
  ToLower (Command req) <> "quit" ->
  methods !! ToLower (Command req) = Some fn ->
  iter (ReadOk req) st =
    let out := run exec (fn req McResponse0) (world st) in
    let st' := {| conn := conn st; world := out.1.2; log := log st ++ out.2 |} in
    let res :=
      match out.1.1.2 with
      | Some e => set_Response ("SERVER_ERROR " +:+ Error e) out.1.1.1
      | None => out.1.1.1
      end in
    if Noreply req then (Continue, st')
    else (Continue, write (Protocol res) st').
Proof.
  intros Hq Hfn. unfold iteration. cbv zeta. unfold HandlerFn in *.
  rewrite decide_False by exact Hq. rewrite Hfn.
  destruct (run exec (fn req McResponse0) (world st)) as [[[res err] w] l].
  cbn [fst snd]. destruct (Noreply req); reflexivity.
Qed.

(** C6: a request with the no-reply flag whose command is in the dispatch
    table.  The handler runs: the world becomes what the handler leaves
    and its calls are added to the log, whether or not it returns an
    error; nothing is written to the connection; the loop goes on.  For
    the handlers of this package, the world and the log are the same as
    for the request without the flag, which differs by one write. *)
Theorem noreply_runs_handler (req : McRequest) (fn : HandlerFn) (st : session) :
  ToLower (Command req) <> "quit" ->
  methods !! ToLower (Command req) = Some fn ->
  Noreply req = true ->
  (iter (ReadOk req) st).1 = Continue
  /\ conn (iter (ReadOk req) st).2 = conn st
  /\ world (iter (ReadOk req) st).2 = final exec (fn req McResponse0) (world st)
  /\ log (iter (ReadOk req) st).2
     = log st ++ calls exec (fn req McResponse0) (world st)
  /\ (handler fn ->
      world (iter (ReadOk (set_Noreply false req)) st).2
        = world (iter (ReadOk req) st).2
      /\ log (iter (ReadOk (set_Noreply false req)) st).2
        = log (iter (ReadOk req) st).2
      /\ exists reply_ : string,
          written (conn (iter (ReadOk (set_Noreply false req)) st).2)
            = written (conn st) ++ [reply_]).
Proof.
  intros Hq Hfn Hnr.
  rewrite (iteration_dispatched req fn st Hq Hfn). cbv zeta. rewrite Hnr.
  cbn [fst snd conn world log]. unfold final, calls.
  repeat split.
  - rewrite (iteration_dispatched (set_Noreply false req) fn st Hq Hfn).
    cbv zeta. cbn [Noreply set_Noreply snd write world].
    rewrite handler_ignores_Noreply by assumption. reflexivity.
  - rewrite (iteration_dispatched (set_Noreply false req) fn st Hq Hfn).
    cbv zeta. cbn [Noreply set_Noreply snd write log].
    rewrite handler_ignores_Noreply by assumption. reflexivity.
  - rewrite (iteration_dispatched (set_Noreply false req) fn st Hq Hfn).
    cbv zeta. cbn [Noreply set_Noreply snd write conn WriteString written].
    eexists. reflexivity.
Qed.

(** C7: a request whose lower-cased command is neither [quit] nor in the
    dispatch table.  Whatever its no-reply flag, one response is written,
    whose status line says that the command is not implemented; no call
    is made, the world and the log stay as they were, and the loop goes
    on. *)
Theorem unknown_command_answered (req : McRequest) (st : session) (b : bool) :
  ToLower (Command req) <> "quit" ->
  methods !! ToLower (Command req) = None ->
  iter (ReadOk (set_Noreply b req)) st =
    (Continue,
     {| conn :=
          WriteString
            (Protocol
               {| Response := "ERROR not implemented cmd '"
                              +:+ ToLower (Command req) +:+ "' in handler";
                  Values := [] |})
            (conn st);
        world := world st;
        log := log st |}).
Proof.
  intros Hq Hnone. unfold iteration. cbv zeta. unfold HandlerFn in *.
  cbn [Command set_Noreply].
  rewrite decide_False by exact Hq. rewrite Hnone. reflexivity.
Qed.
End Serving.

Section Ending.
Context {W : Type}.
Variable exec : forall c : call, W -> reply c * W.
Variable ToLower : string -> string.
Variable Protocol : McResponse -> string.
Variable methods : gmap string HandlerFn.

Local Abbreviation iter := (iteration exec ToLower Protocol methods).
Local Abbreviation serve := (Serve exec ToLower Protocol methods).
Local Abbreviation goes_on := (fun rd => exit_of ToLower rd = None).

(** One pass ends the loop exactly on the three events, and then
    without touching the session. *)
Lemma iteration_exit (rd : ReadResult) (st : session) :
  match exit_of ToLower rd with
  | Some err => iter rd st = (Return err, st)
  | None =>
      (iter rd st).1 = Continue
      /\ closes (conn (iter rd st).2) = closes (conn st)
  end.
Proof.
  destruct rd as [req | []]; cbn [exit_of]; try (split; reflexivity);
    try reflexivity.
  unfold iteration. cbv zeta.
  destruct (decide (ToLower (Command req) = "quit")); [reflexivity|].
  destruct (methods !! ToLower (Command req)) as [fn|]; [|split; reflexivity].
  destruct (run exec (fn req McResponse0) (world st)) as [[[res err] w] l].
  destruct (Noreply req); split; reflexivity.
Qed.

Lemma Serve_cons_exit (rd : ReadResult) (input : list ReadResult)
      (st : session) (err : option error) :
  exit_of ToLower rd = Some err ->
  serve (rd :: input) st
    = (Returned err,
       {| conn := Close (conn st); world := world st; log := log st |}).
Proof.
  intros He. pose proof (iteration_exit rd st) as H. rewrite He in H.
  cbn [Serve]. rewrite H. reflexivity.
Qed.

Lemma Serve_cons_goes_on (rd : ReadResult) (input : list ReadResult)
      (st : session) :
  exit_of ToLower rd = None ->
  serve (rd :: input) st = serve input (iter rd st).2.
Proof.
  intros He. pose proof (iteration_exit rd st) as H. rewrite He in H.
  destruct H as [H _]. cbn [Serve].
  destruct (iter rd st) as [f st']. cbn [fst snd] in *. subst f. reflexivity.
Qed.




End Ending.

(** ** Backend failures *)

Section Failures.
Context {W : Type}.
Variable exec : forall c : call, W -> reply c * W.

(** X19: The calls whose error the handlers check: [Del], [FlushAll], [IncrBy]
    and [DecrBy] return it unchanged ([Get], [Set] and [SetNX] are covered
    by the theorems on their handlers). *)
Lemma checked_errors_returned (req : McRequest) (res : McResponse) (w : W)
      (e : error) :
  (Err (exec (Del (Key req)) w).1 = Some e ->
     result exec (DeleteHandler req res) w = (res, Some e))
  /\ (Err (exec FlushAll w).1 = Some e ->
     result exec (FlushAllHandler req res) w = (res, Some e))
  /\ (Val (exec (Exists_ (Key req)) w).1 = true ->
      Err (exec (IncrBy (Key req) (Increment req))
                (exec (Exists_ (Key req)) w).2).1 = Some e ->
      result exec (IncrHandler req res) w = (res, Some e))
  /\ (Val (exec (Exists_ (Key req)) w).1 = true ->
      Err (exec (DecrBy (Key req) (Increment req))
                (exec (Exists_ (Key req)) w).2).1 = Some e ->
      result exec (DecrHandler req res) w = (res, Some e)).
Proof.
  unfold result. repeat split.
  - intros H. unfold DeleteHandler. simpl.
    destruct (exec (Del (Key req)) w) as [r w1]. simpl in *. rewrite H.
    reflexivity.
  - intros H. unfold FlushAllHandler. simpl.
    destruct (exec FlushAll w) as [r w1]. simpl in *. rewrite H. reflexivity.
  - intros Hv H. rewrite IncrHandler_run. cbv zeta. rewrite Hv, H. reflexivity.
  - intros Hv H. rewrite DecrHandler_run. cbv zeta. rewrite Hv, H. reflexivity.
Qed.

(** X18: An error returned by a handler reaches the client as a
    [SERVER_ERROR] line, and the loop goes on. *)
Lemma handler_error_surfaced (ToLower : string -> string)
      (Protocol : McResponse -> string) (methods : gmap string HandlerFn)
      (req : McRequest) (fn : HandlerFn) (st : session) (e : error) :
  ToLower (Command req) <> "quit" ->
  methods !! ToLower (Command req) = Some fn ->
  Noreply req = false ->
  (result exec (fn req McResponse0) (world st)).2 = Some e ->
  (iteration exec ToLower Protocol methods (ReadOk req) st).1 = Continue
  /\ written (conn (iteration exec ToLower Protocol methods (ReadOk req) st).2)
     = written (conn st)
       ++ [Protocol (set_Response ("SERVER_ERROR " +:+ Error e)
                       (result exec (fn req McResponse0) (world st)).1)].
Proof.
  intros Hq Hfn Hnr He. unfold result in *.
  rewrite (iteration_dispatched exec ToLower Protocol methods req fn st Hq Hfn).
  cbv zeta. rewrite Hnr, He. split; reflexivity.
Qed.
End Failures.

(** C3, at two requests served while the backend is unreachable, so that
    every backend call fails.  A SET whose expiration is an instant of the
    past: the [Expire] call fails, and the handler returns no error and
    reports [STORED].  An INCR: the existence check fails, and the handler
    returns no error and reports [NOT_FOUND].  The serve loop answers them
    with [STORED] and [NOT_FOUND], not with a [SERVER_ERROR] line. *)
Lemma unchecked_backend_errors_dropped :
  Err (Mem.exec (Expire "k" (-1697407999000000000)) Mem.down).1
    = Some (errorString "dial tcp: connection refused")
  /\ run Mem.exec (SetHandler (request "set" "k" "v" 2592001) McResponse0) Mem.down
     = (({| Response := "STORED"; Values := [] |}, None), Mem.down,
        [Now; Expire "k" (-1697407999000000000)])
  /\ Err (Mem.exec (Exists_ "k") Mem.down).1
     = Some (errorString "dial tcp: connection refused")
  /\ run Mem.exec (IncrHandler (request "incr" "k" "" 0) McResponse0) Mem.down
     = (({| Response := "NOT_FOUND"; Values := [] |}, None), Mem.down,
        [Exists_ "k"])
  /\ written (conn (Serve Mem.exec ToLower_ascii Protocol_wire default_methods
                      [ReadOk (request "set" "k" "v" 2592001);
                       ReadOk (request "incr" "k" "" 0)]
                      (mkSession Conn0 Mem.down [])).2)
     = ["STORED" +:+ CRLF; "NOT_FOUND" +:+ CRLF].
Proof. repeat split; vm_compute; reflexivity. Qed.

(** A SET with a relative expiration while the backend is unreachable: the
    error of the [Set] call is returned, as for every checked call. *)
Example SetHandler_returns_Set_error :
  run Mem.exec (SetHandler (request "set" "k" "v" 60) McResponse0) Mem.down
    = ((McResponse0, Some (errorString "dial tcp: connection refused")), Mem.down,
       [Set_ "k" "v" 60000000000]).
Proof. vm_compute. reflexivity. Qed.

(** ** The theorems at concrete requests *)

Lemma SetHandler_spec_witness :
  run Mem.exec (expirationParser (Exptime (request "set" "k" "v" 2592001))) Mem.empty
    = (({| secs := -1697407999000000000; unlimited := false; past := true |}, None),
       Mem.empty, [Now])
  /\ run Mem.exec (SetHandler (request "set" "k" "v" 2592001) McResponse0) Mem.empty
     = (({| Response := "STORED"; Values := [] |}, None), Mem.empty,
        [Now; Expire "k" (-1697407999000000000)]).
Proof.
  assert (Htr : run Mem.exec
                  (expirationParser (Exptime (request "set" "k" "v" 2592001)))
                  Mem.empty
                = (({| secs := -1697407999000000000; unlimited := false;
                       past := true |}, None), Mem.empty, [Now]))
    by reflexivity.
  split; [exact Htr|].
  destruct (SetHandler_spec Mem.exec (request "set" "k" "v" 2592001) McResponse0
              _ _ _ _ _ Htr) as [_ [_ H]].
  rewrite H. reflexivity.
Defined.

(** SET with expiration 0, then GET: the value comes back, and the store
    holds it with no time to live. *)
Example Set_unlimited_then_Get :
  let w := final Mem.exec (SetHandler (request "set" "k" "v" 0) McResponse0)
             Mem.empty in
  calls Mem.exec (SetHandler (request "set" "k" "v" 0) McResponse0) Mem.empty
    = [Set_ "k" "v" 0]
  /\ Mem.store w !! "k" = Some ("v", None)
  /\ result Mem.exec (GetHandler (request "get" "k" "" 0) McResponse0) w
     = ({| Response := "END";
           Values := [{| VKey := "k"; VFlags := "0"; VData := "v" |}] |}, None).
Proof. repeat split; vm_compute; reflexivity. Qed.


(** ADD on a fresh key, then ADD again: stored, then not stored, and the
    first value stays. *)
Example Add_twice :
  let w := final Mem.exec (AddHandler (request "add" "k2" "first" 0) McResponse0)
             Mem.empty in
  result Mem.exec (AddHandler (request "add" "k2" "first" 0) McResponse0) Mem.empty
    = ({| Response := "STORED"; Values := [] |}, None)
  /\ result Mem.exec (AddHandler (request "add" "k2" "second" 0) McResponse0) w
     = ({| Response := "NOT_STORED"; Values := [] |}, None)
  /\ Mem.store
       (final Mem.exec (AddHandler (request "add" "k2" "second" 0) McResponse0) w)
       !! "k2" = Some ("first", None).
Proof. repeat split; vm_compute; reflexivity. Qed.

Lemma GetHandler_spec_witness :
  Forall (fun kr : string * Cmd string => failed kr.2 = false)
         (Get_replies Mem.exec (Keys get_ABC) Mem.two_keys)
  /\ result Mem.exec (GetHandler get_ABC McResponse0) Mem.two_keys
     = ({| Response := "END";
           Values := [{| VKey := "A"; VFlags := "0"; VData := "1" |};
                      {| VKey := "C"; VFlags := "0"; VData := "3" |}] |}, None)
  /\ calls Mem.exec (GetHandler get_ABC McResponse0) Mem.two_keys
     = [Get "A"; Get "B"; Get "C"].
Proof.
  assert (Hok : Forall (fun kr : string * Cmd string => failed kr.2 = false)
                       (Get_replies Mem.exec (Keys get_ABC) Mem.two_keys))
    by (repeat constructor).
  split; [exact Hok|].
  unfold result, calls.
  rewrite (proj1 (GetHandler_spec Mem.exec get_ABC McResponse0 Mem.two_keys) Hok).
  split; reflexivity.
Defined.

(** GET while the backend is unreachable: the first key fails, the others
    are not asked for. *)
Example Get_backend_error :
  run Mem.exec (GetHandler get_ABC McResponse0) Mem.down
    = ((McResponse0, Some (errorString "dial tcp: connection refused")),
       Mem.down, [Get "A"]).
Proof. vm_compute. reflexivity. Qed.

Lemma noreply_runs_handler_witness :
  ToLower_ascii (Command (set_Noreply true (request "SET" "k" "v" 60))) <> "quit"
  /\ default_methods
       !! ToLower_ascii (Command (set_Noreply true (request "SET" "k" "v" 60)))
     = Some SetHandler
  /\ Noreply (set_Noreply true (request "SET" "k" "v" 60)) = true
  /\ (result Mem.exec
        (SetHandler (set_Noreply true (request "SET" "k" "v" 60)) McResponse0)
        Mem.down).2
     = Some (errorString "dial tcp: connection refused")
  /\ conn (iteration Mem.exec ToLower_ascii Protocol_wire default_methods
             (ReadOk (set_Noreply true (request "SET" "k" "v" 60)))
             (session0 Mem.down)).2
     = Conn0
  /\ log (iteration Mem.exec ToLower_ascii Protocol_wire default_methods
            (ReadOk (set_Noreply true (request "SET" "k" "v" 60)))
            (session0 Mem.down)).2
     = [Set_ "k" "v" 60000000000].
Proof.
  assert (Hq : ToLower_ascii (Command (set_Noreply true (request "SET" "k" "v" 60)))
               <> "quit") by (vm_compute; discriminate).
  assert (Hfn : default_methods
                  !! ToLower_ascii
                       (Command (set_Noreply true (request "SET" "k" "v" 60)))
                = Some SetHandler) by reflexivity.
  destruct (noreply_runs_handler Mem.exec ToLower_ascii Protocol_wire
              default_methods (set_Noreply true (request "SET" "k" "v" 60))
              SetHandler (session0 Mem.down) Hq Hfn eq_refl)
    as (_ & Hconn & _ & Hlog & _).
  split; [exact Hq|]. split; [exact Hfn|]. split; [reflexivity|].
  split; [reflexivity|]. split.
  - rewrite Hconn. reflexivity.
  - rewrite Hlog. reflexivity.
Defined.

Lemma unknown_command_answered_witness :
  ToLower_ascii (Command (request "Touch" "k" "" 0)) <> "quit"
  /\ default_methods !! ToLower_ascii (Command (request "Touch" "k" "" 0)) = None
  /\ iteration Mem.exec ToLower_ascii Protocol_wire default_methods
       (ReadOk (set_Noreply true (request "Touch" "k" "" 0))) (session0 Mem.empty)
     = (Continue,
        {| conn := {| written := ["ERROR not implemented cmd 'touch' in handler"
                                  +:+ CRLF];
                      closes := 0 |};
           world := Mem.empty;
           log := [] |}).
Proof.
  assert (Hq : ToLower_ascii (Command (request "Touch" "k" "" 0)) <> "quit")
    by (vm_compute; discriminate).
  assert (Hnone : default_methods
                    !! ToLower_ascii (Command (request "Touch" "k" "" 0)) = None)
    by reflexivity.
  split; [exact Hq|]. split; [exact Hnone|].
  rewrite (unknown_command_answered Mem.exec ToLower_ascii Protocol_wire
             default_methods (request "Touch" "k" "" 0) (session0 Mem.empty)
             true Hq Hnone).
  reflexivity.
Defined.

(** A connection that sends a malformed line, a SET, a GET, [QUIT] in
    capitals and one more request: the loop answers the first three,
    returns on the fourth without an answer, closes the connection, and
    never sees the fifth. *)
Example Serve_session :
  Serve Mem.exec ToLower_ascii Protocol_wire default_methods
    [ReadErr (ProtocolError "bad command line");
     ReadOk (request "set" "k" "v" 0);
     ReadOk (request "get" "k" "" 0);
     ReadOk (request "QUIT" "" "" 0);
     ReadOk (request "flush_all" "" "" 0)]
    (session0 Mem.empty)
  = (Returned None,
     {| conn := {| written := ["CLIENT_ERROR bad command line" +:+ CRLF;
                               "STORED" +:+ CRLF;
                               "VALUE k 0 1" +:+ CRLF +:+ "v" +:+ CRLF
                                 +:+ "END" +:+ CRLF];
                   closes := 1 |};
        world := final Mem.exec (SetHandler (request "set" "k" "v" 0) McResponse0)
                   Mem.empty;
        log := [Set_ "k" "v" 0; Get "k"] |}).
Proof. vm_compute. reflexivity. Qed.

(** * Further properties of the handlers *)

Section Handlers.
Context {W : Type}.
Variable exec : forall c : call, W -> reply c * W.

(** The four ways a translation can go. *)
Lemma expirationParser_cases (raw : Z) (w : W) :
  (raw = 0 /\
   run exec (expirationParser raw) w
     = (({| secs := 0; unlimited := true; past := false |}, None), w, []))
  \/ (2592000 < raw /\
      run exec (expirationParser raw) w
        = (({| secs := time.Sub (time.Unix raw) (exec Now w).1;
               unlimited := false;
               past := time.Sub (time.Unix raw) (exec Now w).1 <=? 0 |}, None),
           (exec Now w).2, [Now]))
  \/ (raw < 0 /\
      run exec (expirationParser raw) w
        = ((ttl0, Some (errorString "Expiration cannot be negative")), w, []))
  \/ (0 < raw <= 2592000 /\
      run exec (expirationParser raw) w
        = (({| secs := raw * 1000000000; unlimited := false; past := false |},
            None), w, [])).
Proof.
  rewrite expirationParser_run.
  destruct (Z.eqb_spec raw 0); [left; split; [assumption | reflexivity]|].
  destruct (Z.ltb_spec 2592000 raw);
    [right; left; split; [assumption | reflexivity]|].
  destruct (Z.ltb_spec raw 0);
    [right; right; left; split; [assumption | reflexivity]|].
  right; right; right. split; [lia|].
  unfold Int64.mul. rewrite wrap_id by (int64_consts; lia). reflexivity.
Qed.

Lemma SetHandler_run (req : McRequest) (res : McResponse) (w : W) :
  run exec (SetHandler req res) w =
    let tr := run exec (expirationParser (Exptime req)) w in
    match tr.1.1.2 with
    | Some e => ((res, Some e), tr.1.2, tr.2)
    | None =>
        if past tr.1.1.1 then
          ((set_Response "STORED" res, None),
           (exec (Expire (Key req) (secs tr.1.1.1)) tr.1.2).2,
           tr.2 ++ [Expire (Key req) (secs tr.1.1.1)])
        else
          (match Err (exec (Set_ (Key req) (Value req) (secs tr.1.1.1)) tr.1.2).1 with
           | Some e => (res, Some e)
           | None => (set_Response "STORED" res, None)
           end,
           (exec (Set_ (Key req) (Value req) (secs tr.1.1.1)) tr.1.2).2,
           tr.2 ++ [Set_ (Key req) (Value req) (secs tr.1.1.1)])
    end.
Proof.
  unfold SetHandler. rewrite run_bind.
  destruct (run exec (expirationParser (Exptime req)) w) as [[[exp err] w1] l1].
  cbn [fst snd]. destruct err as [e|].
  - simpl. rewrite app_nil_r. reflexivity.
  - destruct (past exp); simpl.
    + destruct (exec (Expire (Key req) (secs exp)) w1) as [r w2]. reflexivity.
    + destruct (exec (Set_ (Key req) (Value req) (secs exp)) w1) as [r w2].
      simpl. destruct (Err r); reflexivity.
Qed.

Lemma AddHandler_run (req : McRequest) (res : McResponse) (w : W) :
  run exec (AddHandler req res) w =
    let tr := run exec (expirationParser (Exptime req)) w in
    match tr.1.1.2 with
    | Some e => ((res, Some e), tr.1.2, tr.2)
    | None =>
        (match Err (exec (SetNX (Key req) (Value req) (secs tr.1.1.1)) tr.1.2).1 with
         | Some e => (res, Some e)
         | None =>
             if Val (exec (SetNX (Key req) (Value req) (secs tr.1.1.1)) tr.1.2).1
             then (set_Response "STORED" res, None)
             else (set_Response "NOT_STORED" res, None)
         end,
         (exec (SetNX (Key req) (Value req) (secs tr.1.1.1)) tr.1.2).2,
         tr.2 ++ [SetNX (Key req) (Value req) (secs tr.1.1.1)])
    end.
Proof.
  unfold AddHandler. rewrite run_bind.
  destruct (run exec (expirationParser (Exptime req)) w) as [[[exp err] w1] l1].
  cbn [fst snd]. destruct err as [e|].
  - simpl. rewrite app_nil_r. reflexivity.
  - simpl.
    destruct (exec (SetNX (Key req) (Value req) (secs exp)) w1) as [r w2].
    simpl. destruct (Err r); [reflexivity|]. destruct (Val r); reflexivity.
Qed.

Lemma DeleteHandler_run (req : McRequest) (res : McResponse) (w : W) :
  run exec (DeleteHandler req res) w =
    (match Err (exec (Del (Key req)) w).1 with
     | Some e => (res, Some e)
     | None =>
         if 0 <? Val (exec (Del (Key req)) w).1
         then (set_Response "DELETED" res, None)
         else (set_Response "NOT_FOUND" res, None)
     end, (exec (Del (Key req)) w).2, [Del (Key req)]).
Proof.
  unfold DeleteHandler. simpl.
  destruct (exec (Del (Key req)) w) as [r w1]. simpl.
  destruct (Err r); [reflexivity|]. destruct (0 <? Val r); reflexivity.
Qed.

Lemma FlushAllHandler_run (req : McRequest) (res : McResponse) (w : W) :
  run exec (FlushAllHandler req res) w =
    (match Err (exec FlushAll w).1 with
     | Some e => (res, Some e)
     | None => (set_Response "OK" res, None)
     end, (exec FlushAll w).2, [FlushAll]).
Proof.
  unfold FlushAllHandler. simpl.
  destruct (exec FlushAll w) as [r w1]. simpl. destruct (Err r); reflexivity.
Qed.
End Handlers.

(** ** GET, whatever the backend answers *)

Section GetShape.
Context {W : Type}.
Variable exec : forall c : call, W -> reply c * W.

Lemma GetHandler_range_shape (keys : list string) (res : McResponse) (w : W) :
  exists (n : nat) (new : list McValue),
    (n <= length keys)%nat
    /\ calls exec (GetHandler_range keys res) w = Get <$> take n keys
    /\ Values (result exec (GetHandler_range keys res) w).1 = Values res ++ new
    /\ sublist (VKey <$> new) (take n keys)
    /\ Forall (fun v => VFlags v = "0") new
    /\ match (result exec (GetHandler_range keys res) w).2 with
       | None =>
           n = length keys
           /\ Response (result exec (GetHandler_range keys res) w).1 = "END"
       | Some e =>
           e <> redis_Nil /\ (0 < n)%nat
           /\ Response (result exec (GetHandler_range keys res) w).1 = Response res
       end.
Proof.
  unfold calls, result. revert res w.
  induction keys as [|key keys IH]; intros res w.
  - exists 0%nat, []. cbn. rewrite app_nil_r.
    repeat split; auto; constructor.
  - rewrite GetHandler_range_cons. cbv zeta.
    destruct (Err (Get_reply exec key w)) as [e|] eqn:E.
    + destruct e.
      * destruct (IH res (Get_world exec key w))
          as (n & new & Hn & Hc & Hv & Hs & Hf & He).
        destruct (run exec (GetHandler_range keys res) (Get_world exec key w))
          as [[[r e] w2] l]. cbn [fst snd] in *.
        exists (S n), new. cbn [take length fmap list_fmap].
        repeat split; [lia | f_equal; exact Hc | exact Hv
                      | apply sublist_cons, Hs | exact Hf |].
        destruct e; [destruct He as (? & ? & ?); repeat split; auto; lia
                    | destruct He; split; [lia | assumption]].
      * exists 1%nat, []. cbn. rewrite app_nil_r.
        repeat split; auto; try lia; try apply sublist_nil_l;
          try constructor; try discriminate.
      * exists 1%nat, []. cbn. rewrite app_nil_r.
        repeat split; auto; try lia; try apply sublist_nil_l;
          try constructor; try discriminate.
      * exists 1%nat, []. cbn. rewrite app_nil_r.
        repeat split; auto; try lia; try apply sublist_nil_l;
          try constructor; try discriminate.
    + set (v := {| VKey := key; VFlags := "0"; VData := Val (Get_reply exec key w) |}).
      destruct (IH (append_Values v res) (Get_world exec key w))
        as (n & new & Hn & Hc & Hv & Hs & Hf & He).
      destruct (run exec (GetHandler_range keys (append_Values v res))
                  (Get_world exec key w)) as [[[r e] w2] l].
      cbn [fst snd] in *.
      exists (S n), (v :: new). cbn [take length fmap list_fmap].
      repeat split.
      * lia.
      * f_equal. exact Hc.
      * rewrite Hv. cbn [append_Values Values]. rewrite <- app_assoc. reflexivity.
      * apply sublist_skip, Hs.
      * constructor; [reflexivity | exact Hf].
      * destruct e; [destruct He as (? & ? & ?); repeat split; auto; lia
                    | destruct He; split; [lia | assumption]].
Qed.

(** X1: GET on any request and any backend.  The calls are [Get] on the first
    [n] keys of the request, in order, and nothing else; the entries the
    response held are kept and the new ones follow them; the keys of the new
    entries are a subsequence of the keys asked for, so there is at most one
    entry per key asked for and none for another key; every new entry has
    flags "0".  Without error all the keys were asked for and the status
    line is [END]; an error is never [redis.Nil], comes after at least one
    call, and leaves the status line as it was. *)
Theorem GetHandler_shape (req : McRequest) (res : McResponse) (w : W) :
  exists (n : nat) (new : list McValue),
    (n <= length (Keys req))%nat
    /\ calls exec (GetHandler req res) w = Get <$> take n (Keys req)
    /\ Values (result exec (GetHandler req res) w).1 = Values res ++ new
    /\ sublist (VKey <$> new) (take n (Keys req))
    /\ (length new <= n)%nat
    /\ Forall (fun v => VFlags v = "0") new
    /\ match (result exec (GetHandler req res) w).2 with
       | None =>
           n = length (Keys req)
           /\ Response (result exec (GetHandler req res) w).1 = "END"
       | Some e =>
           e <> redis_Nil /\ (0 < n)%nat
           /\ Response (result exec (GetHandler req res) w).1 = Response res
       end.
Proof.
  destruct (GetHandler_range_shape (Keys req) res w)
    as (n & new & Hn & Hc & Hv & Hs & Hf & He).
  exists n, new. repeat split; try assumption.
  apply sublist_length in Hs. rewrite length_fmap, length_take in Hs. lia.
Qed.
End GetShape.

(** ** What every handler keeps to *)

Ltac split_replies :=
  repeat (match goal with
          | |- context [if ?b then _ else _] => destruct b eqn:?
          | |- context [match ?x with Some _ => _ | None => _ end] =>
              destruct x eqn:?
          end; cbn [fst snd negb]).

Ltac open_handler exec req w :=
  unfold result, calls, final;
  try first [ rewrite SetHandler_run | rewrite AddHandler_run
            | rewrite DeleteHandler_run | rewrite IncrHandler_run
            | rewrite DecrHandler_run | rewrite FlushAllHandler_run ];
  cbv zeta;
  try (destruct (expirationParser_cases exec (Exptime req) w)
        as [[? ->]|[[? ->]|[[? ->]|[? ->]]]];
       cbn [fst snd past secs unlimited]);
  split_replies.

Section Discipline.
Context {W : Type}.
Variable exec : forall c : call, W -> reply c * W.

(** X2: Whatever handler fails, on whatever request and backend, the status
    line of the response is the one it had before the call and the entries
    it held are still its first entries; a handler other than GET hands the
    response back exactly as it received it. *)
Theorem handler_error_keeps_response (fn : HandlerFn) (req : McRequest)
        (res : McResponse) (w : W) (e : error) :
  handler fn ->
  (result exec (fn req res) w).2 = Some e ->
  Response (result exec (fn req res) w).1 = Response res
  /\ Values res `prefix_of` Values (result exec (fn req res) w).1
  /\ (In fn plain_handlers -> (result exec (fn req res) w).1 = res).
Proof.
  intros Hfn He.
  assert (Hplain : In fn plain_handlers -> (result exec (fn req res) w).1 = res).
  { intros Hin. revert He. unfold plain_handlers in Hin. cbn [In] in Hin.
    destruct Hin as [<-|[<-|[<-|[<-|[<-|[<-|[<-|[]]]]]]]];
      open_handler exec req w; intros [= ?]; reflexivity. }
  destruct Hfn;
    try (rewrite Hplain by (unfold plain_handlers; cbn [In]; tauto);
         repeat split; reflexivity).
  change (GetHandler req res) with (GetHandler_range (Keys req) res) in *.
  destruct (GetHandler_range_shape exec (Keys req) res w)
    as (n & new & _ & _ & Hv & _ & _ & Hs).
  rewrite He in Hs. destruct Hs as (_ & _ & Hr).
  split; [exact Hr|]. split; [exists new; exact Hv|].
  unfold plain_handlers, In. intros Hin. exfalso.
  revert Hin. clear. intros Hin.
  assert (Hcalls : forall fn', In fn' plain_handlers ->
            fn' {| Command := ""; Key := ""; Keys := []; Value := "";
                   Exptime := 0; Increment := 0; Noreply := false |}
                McResponse0
            <> Ret (set_Response "END" McResponse0, None)).
  { unfold plain_handlers. cbn [In].
    intros fn' [<-|[<-|[<-|[<-|[<-|[<-|[<-|[]]]]]]]]; discriminate. }
  apply (Hcalls GetHandler); [exact Hin | reflexivity].
Qed.
(** X3: Whatever handler succeeds, the status line it leaves is one of the
    seven fixed texts or the decimal form of an integer: a handler never
    returns without error and without having set the status line. *)
Theorem handler_success_status (fn : HandlerFn) (req : McRequest)
        (res : McResponse) (w : W) :
  handler fn ->
  (result exec (fn req res) w).2 = None ->
  In (Response (result exec (fn req res) w).1) fixed_status
  \/ exists z : Z, Response (result exec (fn req res) w).1 = FormatInt z.
Proof.
  intros Hfn. destruct Hfn.
  - intros He.
    change (GetHandler req res) with (GetHandler_range (Keys req) res) in *.
    destruct (GetHandler_range_shape exec (Keys req) res w)
      as (n & new & _ & _ & _ & _ & _ & Hs).
    rewrite He in Hs. destruct Hs as [_ ->]. left. cbn. tauto.
  - open_handler exec req w; intros [=]; left; cbn; tauto.
  - open_handler exec req w; intros [=]; left; cbn; tauto.
  - open_handler exec req w; intros [=]; left; cbn; tauto.
  - open_handler exec req w; intros [=]; first [left; cbn; tauto | right; eexists; reflexivity].
  - open_handler exec req w; intros [=]; first [left; cbn; tauto | right; eexists; reflexivity].
  - open_handler exec req w; intros [=]; left; cbn; tauto.
  - intros _. left. cbn. tauto.
Qed.

(** X4: A handler calls the backend about the keys of its request only: GET
    about keys among [Keys], the handlers of one key about [Key].  No call
    of theirs names another key. *)
Theorem handler_key_isolation (req : McRequest) (res : McResponse) (w : W)
        (c : call) (k : string) :
  key_of c = Some k ->
  (In c (calls exec (GetHandler req res) w) -> In k (Keys req))
  /\ (forall fn : HandlerFn, In fn keyed_handlers ->
        In c (calls exec (fn req res) w) -> k = Key req).
Proof.
  intros Hk. split.
  - change (GetHandler req res) with (GetHandler_range (Keys req) res).
      destruct (GetHandler_range_shape exec (Keys req) res w)
        as (n & new & _ & -> & _).
    intros Hin. apply list_elem_of_In, list_elem_of_fmap in Hin.
    destruct Hin as (k' & -> & Hin). cbn in Hk. injection Hk as <-.
    apply list_elem_of_In. apply elem_of_take in Hin as (i & Hi & _).
    eapply list_elem_of_lookup_2. exact Hi.
  - intros fn Hfn. unfold keyed_handlers in Hfn. cbn [In] in Hfn.
    destruct Hfn as [<-|[<-|[<-|[<-|[<-|[]]]]]];
      open_handler exec req w; cbn [In app];
      intros Hin; repeat (destruct Hin as [<-|Hin]); try contradiction;
      cbn in Hk; congruence.
Qed.

(** X5: GET and VERSION never make a writing call, and no handler but the
    flush-all handler ever makes the [FlushAll] call. *)
Theorem handler_writes (fn : HandlerFn) (req : McRequest) (res : McResponse)
        (w : W) :
  handler fn ->
  (In fn [GetHandler; VersionHandler] ->
     Forall (fun c => is_write c = false) (calls exec (fn req res) w))
  /\ (In FlushAll (calls exec (fn req res) w) -> fn = FlushAllHandler).
Proof.
  intros Hfn. split.
  - cbn [In]. intros [<-|[<-|[]]].
    + change (GetHandler req res) with (GetHandler_range (Keys req) res).
      destruct (GetHandler_range_shape exec (Keys req) res w)
        as (n & new & _ & -> & _).
      apply Forall_fmap, Forall_true. reflexivity.
    + constructor.
  - destruct Hfn; try reflexivity.
    + change (GetHandler req res) with (GetHandler_range (Keys req) res).
      destruct (GetHandler_range_shape exec (Keys req) res w)
        as (n & new & _ & -> & _).
      intros Hin. apply list_elem_of_In, list_elem_of_fmap in Hin.
      destruct Hin as (k' & [=] & _).
    + open_handler exec req w; cbn [In app];
        intros Hin; repeat (destruct Hin as [Hin|Hin]); try contradiction;
        discriminate.
    + open_handler exec req w; cbn [In app];
        intros Hin; repeat (destruct Hin as [Hin|Hin]); try contradiction;
        discriminate.
    + open_handler exec req w; cbn [In app];
        intros Hin; repeat (destruct Hin as [Hin|Hin]); try contradiction;
        discriminate.
    + open_handler exec req w; cbn [In app];
        intros Hin; repeat (destruct Hin as [Hin|Hin]); try contradiction;
        discriminate.
    + open_handler exec req w; cbn [In app];
        intros Hin; repeat (destruct Hin as [Hin|Hin]); try contradiction;
        discriminate.
    + intros [].
Qed.

(** X6: Only SET and ADD read the clock, only for an expiration above 30 days,
    and then they read it once, before their one backend call. *)
Theorem handler_clock (fn : HandlerFn) (req : McRequest) (res : McResponse)
        (w : W) :
  handler fn ->
  (In Now (calls exec (fn req res) w) ->
     In fn [SetHandler; AddHandler] /\ 2592000 < Exptime req)
  /\ (In fn [SetHandler; AddHandler] -> 2592000 < Exptime req ->
      exists c : call,
        calls exec (fn req res) w = [Now; c] /\ is_backend c = true).
Proof.
  intros Hfn. split.
  - destruct Hfn.
    + change (GetHandler req res) with (GetHandler_range (Keys req) res).
      destruct (GetHandler_range_shape exec (Keys req) res w)
        as (n & new & _ & -> & _).
      intros Hin. apply list_elem_of_In, list_elem_of_fmap in Hin.
      destruct Hin as (k' & [=] & _).
    + intros Hin. split; [cbn; tauto|]. revert Hin.
      open_handler exec req w; cbn [In app]; intros Hin;
        first [ assumption
              | repeat (destruct Hin as [Hin|Hin]); try contradiction;
                discriminate ].
    + intros Hin. split; [cbn; tauto|]. revert Hin.
      open_handler exec req w; cbn [In app]; intros Hin;
        first [ assumption
              | repeat (destruct Hin as [Hin|Hin]); try contradiction;
                discriminate ].
    + open_handler exec req w; cbn [In app];
        intros Hin; repeat (destruct Hin as [Hin|Hin]); try contradiction;
        discriminate.
    + open_handler exec req w; cbn [In app];
        intros Hin; repeat (destruct Hin as [Hin|Hin]); try contradiction;
        discriminate.
    + open_handler exec req w; cbn [In app];
        intros Hin; repeat (destruct Hin as [Hin|Hin]); try contradiction;
        discriminate.
    + open_handler exec req w; cbn [In app];
        intros Hin; repeat (destruct Hin as [Hin|Hin]); try contradiction;
        discriminate.
    + intros [].
  - cbn [In]. intros [<-|[<-|[]]] Hgt;
      open_handler exec req w; try lia; cbn [app];
      eexists; split; reflexivity.
Qed.
End Discipline.

(** ** More on the translator *)

Lemma saturate_sign (z : Z) : saturate z <= 0 <-> z <= 0.
Proof.
  unfold saturate.
  destruct (Z.ltb_spec z time.minDuration); [int64_consts; lia|].
  destruct (Z.ltb_spec time.maxDuration z); int64_consts; lia.
Qed.

Lemma Sub_in_range (t u : time.Time) : Int64.in_range (time.Sub t u).
Proof.
  unfold time.Sub.
  destruct (time.Equal _ t); [apply wrap_in_range|].
  destruct (time.Before t u); int64_consts; lia.
Qed.

Section TranslatorFlags.
Context {W : Type}.
Variable exec : forall c : call, W -> reply c * W.

(** X7: The flags and the duration of a translation, for every input and every
    clock: the TTL is unlimited exactly for 0 and there is an error exactly
    for a negative input; an unlimited TTL is never past and has no
    duration; a past TTL comes from an input above 30 days only and its
    duration is at or below zero; every other TTL that is not unlimited has
    a duration above zero; and the duration always fits in 64 bits. *)
Theorem expirationParser_flags (raw : Z) (w : W) :
  (unlimited (result exec (expirationParser raw) w).1 = true <-> raw = 0)
  /\ ((result exec (expirationParser raw) w).2 <> None <-> raw < 0)
  /\ (unlimited (result exec (expirationParser raw) w).1 = true ->
      past (result exec (expirationParser raw) w).1 = false
      /\ secs (result exec (expirationParser raw) w).1 = 0)
  /\ (past (result exec (expirationParser raw) w).1 = true ->
      2592000 < raw /\ secs (result exec (expirationParser raw) w).1 <= 0)
  /\ ((result exec (expirationParser raw) w).2 = None ->
      past (result exec (expirationParser raw) w).1 = false ->
      raw <> 0 ->
      0 < secs (result exec (expirationParser raw) w).1)
  /\ Int64.in_range (secs (result exec (expirationParser raw) w).1).
Proof.
  unfold result.
  destruct (expirationParser_cases exec raw w)
    as [[H ->]|[[H ->]|[[H ->]|[H ->]]]]; cbn [fst snd unlimited past secs].
  - repeat split; auto; try discriminate; try congruence; try lia;
      int64_consts; lia.
  - split; [split; [discriminate | lia]|].
    split; [split; [congruence | lia]|].
    split; [discriminate|].
    split; [intros Hp; split; [lia | apply Z.leb_le, Hp]|].
    split; [intros _ Hp _; apply Z.leb_gt in Hp; lia|].
    apply Sub_in_range.
  - repeat split; auto; try discriminate; try congruence; try lia;
      int64_consts; lia.
  - repeat split; auto; try discriminate; try congruence; try lia;
      int64_consts; lia.
Qed.

(** X8: An absolute expiration is past exactly when its instant is at or
    before the clock's reading, also when the gap is too long for a
    [Duration]; beyond the largest instant [time.Unix] represents it is
    always past. *)
Theorem expirationParser_past_iff (raw : Z) (w : W) :
  Int64.in_range raw ->
  time.wall_clock (exec Now w).1 ->
  2592000 < raw ->
  past (result exec (expirationParser raw) w).1 = true <->
  (raw <= max_unix -> raw * 1000000000 <= time.unixNano (exec Now w).1).
Proof.
  intros Hr Hc Hgt. unfold result.
  destruct (expirationParser_cases exec raw w)
    as [[H ->]|[[H ->]|[[H ->]|[H ->]]]]; try lia.
  cbn [fst past]. rewrite Sub_Unix by (assumption || lia).
  rewrite Z.leb_le.
  destruct (Z.leb_spec raw max_unix).
  - rewrite saturate_sign. lia.
  - split; [lia | intros _; int64_consts; lia].
Qed.
End TranslatorFlags.

Lemma expirationParser_past_iff_witness :
  Int64.in_range 1600000000
  /\ time.wall_clock (Mem.exec Now Mem.empty).1
  /\ 2592000 < 1600000000
  /\ past (result Mem.exec (expirationParser 1600000000) Mem.empty).1 = true.
Proof.
  assert (Hr : Int64.in_range 1600000000) by (vm_compute; split; congruence).
  assert (Hc : time.wall_clock (Mem.exec Now Mem.empty).1)
    by (vm_compute; repeat split; congruence).
  split; [exact Hr|]. split; [exact Hc|]. split; [lia|].
  apply (expirationParser_past_iff Mem.exec 1600000000 Mem.empty Hr Hc ltac:(lia)).
  intros _. vm_compute. congruence.
Defined.

(** ** What SET, DELETE, INCR and DECR send and report *)

Section Sending.
Context {W : Type}.
Variable exec : forall c : call, W -> reply c * W.

(** X9: The durations SET sends, on every request and backend.  A [Set] call
    carries the key and the value of the request and a duration that is never
    negative, and that is zero, which stands for no expiry, exactly when the
    expiration of the request is 0.  An [Expire] call carries the key and a
    duration at or below zero, and is made only for an expiration above 30
    days.  A run never makes both calls, and makes one of them unless the
    translation fails. *)
Theorem SetHandler_durations (req : McRequest) (res : McResponse) (w : W) :
  (forall (k v : string) (d : time.Duration),
      In (Set_ k v d) (calls exec (SetHandler req res) w) ->
      k = Key req /\ v = Value req /\ 0 <= d /\ (d = 0 <-> Exptime req = 0))
  /\ (forall (k : string) (d : time.Duration),
        In (Expire k d) (calls exec (SetHandler req res) w) ->
        k = Key req /\ d <= 0 /\ 2592000 < Exptime req)
  /\ (length (List.filter is_backend (calls exec (SetHandler req res) w))
      = if Exptime req <? 0 then 0%nat else 1%nat).
Proof.
  unfold calls. rewrite SetHandler_run. cbv zeta.
  destruct (expirationParser_cases exec (Exptime req) w)
    as [[H ->]|[[H ->]|[[H ->]|[H ->]]]]; cbn [fst snd past secs unlimited].
  - repeat apply conj.
    + intros k v d [[= <- <- <-]|[]]. repeat split; auto; lia.
    + intros k d [[=]|[]].
    + destruct (Z.ltb_spec (Exptime req) 0); [lia | reflexivity].
  - match goal with
    | |- context [if ?b then _ else _] => destruct b eqn:Hle
    end; [apply Z.leb_le in Hle | apply Z.leb_gt in Hle];
      cbn [fst snd app]; repeat apply conj.
    + intros k v d [[=]|[[=]|[]]].
    + intros k d [[=]|[[= <- <-]|[]]]. repeat split; auto.
    + destruct (Z.ltb_spec (Exptime req) 0); [lia | reflexivity].
    + intros k v d [[=]|[[= <- <- <-]|[]]].
      change (reply Now) with time.Time in *. repeat split; auto; lia.
    + intros k d [[=]|[[=]|[]]].
    + destruct (Z.ltb_spec (Exptime req) 0); [lia | reflexivity].
  - repeat apply conj.
    + intros k v d [].
    + intros k d [].
    + destruct (Z.ltb_spec (Exptime req) 0); [reflexivity | lia].
  - repeat apply conj.
    + intros k v d [[= <- <- <-]|[]]. repeat split; auto; lia.
    + intros k d [[=]|[]].
    + destruct (Z.ltb_spec (Exptime req) 0); [lia | reflexivity].
Qed.


(** X11: DELETE makes one call, [Del] on the key.  When the call succeeds the
    answer is [DELETED] exactly when the count it returns is above zero and
    [NOT_FOUND] otherwise, a negative count included; when it fails its
    error is returned and the response is untouched. *)
Theorem DeleteHandler_status (req : McRequest) (res : McResponse) (w : W) :
  calls exec (DeleteHandler req res) w = [Del (Key req)]
  /\ final exec (DeleteHandler req res) w = (exec (Del (Key req)) w).2
  /\ (Err (exec (Del (Key req)) w).1 = None ->
      (result exec (DeleteHandler req res) w).2 = None
      /\ (Response (result exec (DeleteHandler req res) w).1 = "DELETED"
          <-> 0 < Val (exec (Del (Key req)) w).1)
      /\ (Response (result exec (DeleteHandler req res) w).1 = "NOT_FOUND"
          <-> Val (exec (Del (Key req)) w).1 <= 0))
  /\ (forall e : error,
        Err (exec (Del (Key req)) w).1 = Some e ->
        result exec (DeleteHandler req res) w = (res, Some e)).
Proof.
  unfold calls, final, result. rewrite DeleteHandler_run. cbn [fst snd].
  split; [reflexivity|]. split; [reflexivity|]. split.
  - intros ->. destruct (Z.ltb_spec 0 (Val (exec (Del (Key req)) w).1));
      cbn [fst snd set_Response Response];
      (split; [reflexivity|]); split; split; try lia; try discriminate; auto.
  - intros e ->. reflexivity.
Qed.

(** X12: INCR and DECR on a key the existence check finds: two calls, the check
    and then [IncrBy] (for INCR) or [DecrBy] (for DECR) on the same key with
    the increment of the request as it is, made in the world the check
    leaves.  When the second call succeeds the answer is the decimal form of
    the value it returns; when it fails its error is returned and the
    response is untouched. *)
Theorem IncrDecr_existing_key (req : McRequest) (res : McResponse) (w : W) :
  Val (exec (Exists_ (Key req)) w).1 = true ->
  run exec (IncrHandler req res) w
    = (match Err (exec (IncrBy (Key req) (Increment req))
                       (exec (Exists_ (Key req)) w).2).1 with
       | Some e => (res, Some e)
       | None =>
           (set_Response
              (FormatInt (Val (exec (IncrBy (Key req) (Increment req))
                                    (exec (Exists_ (Key req)) w).2).1)) res,
            None)
       end,
       (exec (IncrBy (Key req) (Increment req)) (exec (Exists_ (Key req)) w).2).2,
       [Exists_ (Key req); IncrBy (Key req) (Increment req)])
  /\ run exec (DecrHandler req res) w
    = (match Err (exec (DecrBy (Key req) (Increment req))
                       (exec (Exists_ (Key req)) w).2).1 with
       | Some e => (res, Some e)
       | None =>
           (set_Response
              (FormatInt (Val (exec (DecrBy (Key req) (Increment req))
                                    (exec (Exists_ (Key req)) w).2).1)) res,
            None)
       end,
       (exec (DecrBy (Key req) (Increment req)) (exec (Exists_ (Key req)) w).2).2,
       [Exists_ (Key req); DecrBy (Key req) (Increment req)]).
Proof.
  intros Hex. rewrite IncrHandler_run, DecrHandler_run. cbv zeta.
  rewrite Hex. split; reflexivity.
Qed.
End Sending.

(** ** The numbers INCR and DECR report *)

Lemma pretty_N_go_head (x : N) (s : string) :
  (0 < x)%N ->
  exists (n : N) (rest : string),
    pretty_N_go x s = String (pretty_N_char n) rest.
Proof.
  revert s. induction (N.lt_wf_0 x) as [x _ IH]; intros s Hx.
  rewrite pretty_N_go_step by exact Hx.
  destruct (N.eq_dec (N.div x 10) 0%N) as [E|E].
  - rewrite E, pretty_N_go_0. exists (N.modulo x 10), s. reflexivity.
  - apply IH; [apply N.div_lt; [exact Hx | reflexivity]
              | apply N.neq_0_lt_0, E].
Qed.

(** A string that starts with a digit is none of the fixed texts. *)
Lemma pretty_N_char_digit (n : N) (rest : string) :
  ~ In (String (pretty_N_char n) rest) fixed_status.
Proof.
  unfold pretty_N_char, fixed_status. cbn [In].
  repeat case_match; intros Hin;
    repeat (destruct Hin as [Hin|Hin]); try discriminate Hin; contradiction.
Qed.

Lemma FormatInt_not_fixed (z : Z) : ~ In (FormatInt z) fixed_status.
Proof.
  unfold FormatInt, pretty, pretty_Z.
  destruct z as [|p|p].
  - unfold fixed_status. cbn [In]. intros Hin.
    repeat (destruct Hin as [Hin|Hin]); try discriminate Hin; contradiction.
  - unfold pretty, pretty_positive, pretty, pretty_N.
    rewrite decide_False by discriminate.
    destruct (pretty_N_go_head (N.pos p) "") as (n & rest & ->);
      [reflexivity|]. apply pretty_N_char_digit.
  - unfold fixed_status. cbn [In]. intros Hin.
    repeat (destruct Hin as [Hin|Hin]); try discriminate Hin; contradiction.
Qed.

(** X13: The status line INCR and DECR set for a value is never one of the
    fixed status texts, so that a number is not taken for [NOT_FOUND], and
    two different values never give the same line. *)
Theorem FormatInt_status :
  (forall z : Z, ~ In (FormatInt z) fixed_status)
  /\ (forall z1 z2 : Z, FormatInt z1 = FormatInt z2 -> z1 = z2).
Proof.
  split.
  - apply FormatInt_not_fixed.
  - intros z1 z2 H. apply (inj pretty), H.
Qed.

(** X14: When INCR or DECR returns without error, on any backend, the answer
    is [NOT_FOUND] exactly when the existence check said that the key does
    not exist: whatever number the backend returns for a key that exists,
    the answer tells the two cases apart. *)
Theorem IncrDecr_not_found_iff {W} (exec : forall c : call, W -> reply c * W)
        (h : HandlerFn) (req : McRequest) (res : McResponse) (w : W) :
  h = IncrHandler \/ h = DecrHandler ->
  (result exec (h req res) w).2 = None ->
  Response (result exec (h req res) w).1 = "NOT_FOUND"
  <-> Val (exec (Exists_ (Key req)) w).1 = false.
Proof.
  intros Hh. unfold result.
  destruct Hh as [-> | ->];
    [rewrite IncrHandler_run | rewrite DecrHandler_run]; cbv zeta;
    (destruct (Val (exec (Exists_ (Key req)) w).1); cbn [negb fst snd];
     [|intros _; split; reflexivity]);
    match goal with
    | |- context [match ?x with Some _ => _ | None => _ end] => destruct x
    end; cbn [fst snd set_Response Response]; try discriminate;
    intros _; (split; [|discriminate]);
    intros H; exfalso;
    match type of H with
    | FormatInt ?z = _ =>
        apply (FormatInt_not_fixed z); rewrite H; cbn; tauto
    end.
Qed.

(** ** More on the serve loop *)

Section Session.
Context {W : Type}.
Variable exec : forall c : call, W -> reply c * W.
Variable ToLower : string -> string.
Variable Protocol : McResponse -> string.
Variable methods : gmap string HandlerFn.

Local Abbreviation iter := (iteration exec ToLower Protocol methods).
Local Abbreviation serve := (Serve exec ToLower Protocol methods).

(** What one pass adds to the connection and to the log. *)
Lemma iteration_effect (rd : ReadResult) (st : session) :
  exists (out : list string) (l : list call),
    written (conn (iter rd st).2) = written (conn st) ++ out
    /\ log (iter rd st).2 = log st ++ l
    /\ length out
       = (if answered ToLower methods rd then 1%nat else 0%nat)
    /\ (dispatched ToLower methods rd = false ->
        l = [] /\ world (iter rd st).2 = world st).
Proof.
  destruct rd as [req | []]; cbn [answered dispatched];
    try (exists [], []; cbn; rewrite !app_nil_r; repeat split; reflexivity).
  - unfold iteration. cbv zeta. unfold HandlerFn in *.
    destruct (decide (ToLower (Command req) = "quit")).
    { exists [], []. cbn. rewrite !app_nil_r. repeat split; reflexivity. }
    destruct (methods !! ToLower (Command req)) as [fn|].
    + destruct (run exec (fn req McResponse0) (world st)) as [[[res err] w] l].
      destruct (Noreply req); cbn [negb].
      * exists [], l. cbn. rewrite app_nil_r. repeat split; discriminate.
      * eexists [_], l. cbn. repeat split; discriminate.
    + eexists [_], []. cbn. rewrite app_nil_r. repeat split; reflexivity.
  - eexists [_], []. cbn. rewrite app_nil_r. repeat split; reflexivity.
Qed.


(** X16: One answer per request that is to be answered.  What a run writes is
    added after what the connection had received; it is one string for each
    decode result that is answered among those the loop gets through, and
    no more: a protocol error, a command that is not in the table, a command
    in the table without the no-reply flag.  The log of calls only grows. *)
Theorem Serve_answers (input : list ReadResult) (st : session) :
  exists (out : list string) (l : list call),
    written (conn (serve input st).2) = written (conn st) ++ out
    /\ length out
       = length (List.filter (answered ToLower methods) (served ToLower input))
    /\ log (serve input st).2 = log st ++ l.
Proof.
  revert st. induction input as [|rd input IH]; intros st.
  - exists [], []. cbn. rewrite !app_nil_r. repeat split; reflexivity.
  - cbn [served]. destruct (exit_of ToLower rd) as [e|] eqn:He.
    + rewrite (Serve_cons_exit exec ToLower Protocol methods _ _ _ _ He).
      exists [], []. cbn. rewrite !app_nil_r. repeat split; reflexivity.
    + rewrite (Serve_cons_goes_on exec ToLower Protocol methods _ _ _ He).
      destruct (iteration_effect rd st) as (out1 & l1 & Hw1 & Hl1 & Hn1 & _).
      destruct (IH (iter rd st).2) as (out2 & l2 & Hw2 & Hn2 & Hl2).
      exists (out1 ++ out2), (l1 ++ l2).
      rewrite Hw2, Hw1, Hl2, Hl1, <- !app_assoc.
      split; [reflexivity|]. split; [|reflexivity].
      rewrite length_app, Hn1, Hn2. cbn [List.filter].
      destruct (answered ToLower methods rd); reflexivity.
Qed.

(** X17: The backend is reached through handlers only: a run in which no decode
    result the loop gets through is dispatched (protocol errors, commands
    that are not in the table, the event that ends the loop) makes no call
    and leaves the world as it was. *)
Theorem Serve_backend_untouched (input : list ReadResult) (st : session) :
  Forall (fun rd => dispatched ToLower methods rd = false)
         (served ToLower input) ->
  world (serve input st).2 = world st /\ log (serve input st).2 = log st.
Proof.
  revert st. induction input as [|rd input IH]; intros st Hnd.
  - split; reflexivity.
  - cbn [served] in Hnd. destruct (exit_of ToLower rd) as [e|] eqn:He.
    + rewrite (Serve_cons_exit exec ToLower Protocol methods _ _ _ _ He).
      split; reflexivity.
    + rewrite (Serve_cons_goes_on exec ToLower Protocol methods _ _ _ He).
      apply Forall_cons in Hnd as [Hrd Hnd].
      destruct (iteration_effect rd st) as (out1 & l1 & _ & Hl1 & _ & Hd).
      destruct (Hd Hrd) as [-> Hw]. rewrite app_nil_r in Hl1.
      destruct (IH (iter rd st).2 Hnd) as [-> ->]. split; assumption.
Qed.
End Session.

(** ** The further properties at concrete requests *)

Lemma handler_error_keeps_response_witness :
  handler DeleteHandler
  /\ (result Mem.exec (DeleteHandler (request "delete" "k" "" 0) McResponse0)
        Mem.down).2
     = Some (errorString "dial tcp: connection refused")
  /\ (result Mem.exec (DeleteHandler (request "delete" "k" "" 0) McResponse0)
        Mem.down).1
     = McResponse0.
Proof.
  split; [constructor|]. split; [reflexivity|].
  apply (handler_error_keeps_response Mem.exec DeleteHandler
           (request "delete" "k" "" 0) McResponse0 Mem.down
           (errorString "dial tcp: connection refused")
           handler_delete eq_refl).
  unfold plain_handlers. cbn [In]. tauto.
Defined.

Lemma handler_success_status_witness :
  handler IncrHandler
  /\ (result Mem.exec (IncrHandler incr_hits McResponse0) counter_world).2 = None
  /\ Response (result Mem.exec (IncrHandler incr_hits McResponse0) counter_world).1
     = "42"
  /\ (In (Response (result Mem.exec (IncrHandler incr_hits McResponse0)
                      counter_world).1) fixed_status
      \/ exists z : Z,
           Response (result Mem.exec (IncrHandler incr_hits McResponse0)
                       counter_world).1 = FormatInt z).
Proof.
  split; [constructor|]. split; [reflexivity|]. split; [reflexivity|].
  exact (handler_success_status Mem.exec IncrHandler incr_hits McResponse0
           counter_world handler_incr eq_refl).
Defined.

Lemma handler_key_isolation_witness :
  key_of (IncrBy "hits" 1) = Some "hits"
  /\ In (IncrBy "hits" 1)
        (calls Mem.exec (IncrHandler incr_hits McResponse0) counter_world)
  /\ "hits" = Key incr_hits.
Proof.
  assert (Hin : In (IncrBy "hits" 1)
                   (calls Mem.exec (IncrHandler incr_hits McResponse0)
                      counter_world)) by (vm_compute; tauto).
  split; [reflexivity|]. split; [exact Hin|].
  apply (proj2 (handler_key_isolation Mem.exec incr_hits McResponse0
                  counter_world (IncrBy "hits" 1) "hits" eq_refl)
               IncrHandler); [unfold keyed_handlers; cbn [In]; tauto | exact Hin].
Defined.

Lemma handler_writes_witness :
  handler GetHandler
  /\ Forall (fun c => is_write c = false)
            (calls Mem.exec (GetHandler get_ABC McResponse0) Mem.two_keys).
Proof.
  split; [constructor|].
  apply (proj1 (handler_writes Mem.exec GetHandler get_ABC McResponse0
                  Mem.two_keys handler_get)).
  cbn [In]. tauto.
Defined.

Lemma handler_clock_witness :
  handler SetHandler
  /\ 2592000 < Exptime (request "set" "k" "v" 1600000000)
  /\ exists c : call,
       calls Mem.exec (SetHandler (request "set" "k" "v" 1600000000) McResponse0)
         Mem.empty = [Now; c]
       /\ is_backend c = true.
Proof.
  split; [constructor|]. split; [reflexivity|].
  apply (proj2 (handler_clock Mem.exec SetHandler
                  (request "set" "k" "v" 1600000000) McResponse0 Mem.empty
                  handler_set)); [cbn [In]; tauto | reflexivity].
Defined.


Lemma IncrDecr_existing_key_witness :
  Val (Mem.exec (Exists_ (Key incr_hits)) counter_world).1 = true
  /\ result Mem.exec (IncrHandler incr_hits McResponse0) counter_world
     = ({| Response := "42"; Values := [] |}, None)
  /\ calls Mem.exec (DecrHandler incr_hits McResponse0) counter_world
     = [Exists_ "hits"; DecrBy "hits" 1].
Proof.
  destruct (IncrDecr_existing_key Mem.exec incr_hits McResponse0 counter_world
              eq_refl) as [Hi Hd].
  split; [reflexivity|]. unfold result, calls. rewrite Hi, Hd.
  split; reflexivity.
Defined.

Lemma Serve_backend_untouched_witness :
  Forall (fun rd => dispatched ToLower_ascii default_methods rd = false)
         (served ToLower_ascii
            [ReadErr (ProtocolError "bad"); ReadOk (request "touch" "k" "" 0);
             ReadOk (request "quit" "" "" 0); ReadOk (request "flush_all" "" "" 0)])
  /\ world (Serve Mem.exec ToLower_ascii Protocol_wire default_methods
              [ReadErr (ProtocolError "bad"); ReadOk (request "touch" "k" "" 0);
               ReadOk (request "quit" "" "" 0);
               ReadOk (request "flush_all" "" "" 0)]
              (session0 counter_world)).2
     = counter_world.
Proof.
  assert (H : Forall (fun rd => dispatched ToLower_ascii default_methods rd = false)
                (served ToLower_ascii
                   [ReadErr (ProtocolError "bad");
                    ReadOk (request "touch" "k" "" 0);
                    ReadOk (request "quit" "" "" 0);
                    ReadOk (request "flush_all" "" "" 0)]))
    by (repeat constructor).
  split; [exact H|].
  exact (proj1 (Serve_backend_untouched Mem.exec ToLower_ascii Protocol_wire
                  default_methods _ (session0 counter_world) H)).
Defined.

Lemma handler_error_surfaced_witness :
  ToLower_ascii (Command (request "set" "k" "v" 60)) <> "quit"
  /\ default_methods !! ToLower_ascii (Command (request "set" "k" "v" 60))
     = Some SetHandler
  /\ Noreply (request "set" "k" "v" 60) = false
  /\ (result Mem.exec (SetHandler (request "set" "k" "v" 60) McResponse0)
        (world (session0 Mem.down))).2
     = Some (errorString "dial tcp: connection refused")
  /\ written (conn (iteration Mem.exec ToLower_ascii Protocol_wire default_methods
                      (ReadOk (request "set" "k" "v" 60))
                      (session0 Mem.down)).2)
     = ["SERVER_ERROR dial tcp: connection refused" +:+ CRLF].
Proof.
  assert (Hq : ToLower_ascii (Command (request "set" "k" "v" 60)) <> "quit")
    by (vm_compute; discriminate).
  assert (Hfn : default_methods
                  !! ToLower_ascii (Command (request "set" "k" "v" 60))
                = Some SetHandler) by reflexivity.
  split; [exact Hq|]. split; [exact Hfn|]. split; [reflexivity|].
  split; [reflexivity|].
  destruct (handler_error_surfaced Mem.exec ToLower_ascii Protocol_wire
              default_methods (request "set" "k" "v" 60) SetHandler
              (session0 Mem.down)
              (errorString "dial tcp: connection refused")
              Hq Hfn eq_refl eq_refl) as [_ H].
  rewrite H. reflexivity.
Defined.

Lemma checked_errors_returned_witness :
  Err (Mem.exec (Del (Key (request "delete" "k" "" 0))) Mem.down).1
    = Some (errorString "dial tcp: connection refused")
  /\ result Mem.exec (DeleteHandler (request "delete" "k" "" 0) McResponse0)
       Mem.down
     = (McResponse0, Some (errorString "dial tcp: connection refused")).
Proof.
  split; [reflexivity|].
  exact (proj1 (checked_errors_returned Mem.exec (request "delete" "k" "" 0)
                  McResponse0 Mem.down
                  (errorString "dial tcp: connection refused")) eq_refl).
Defined.

Lemma IncrDecr_not_found_iff_witness :
  (result Mem.exec (IncrHandler incr_hits McResponse0) Mem.empty).2 = None
  /\ Val (Mem.exec (Exists_ (Key incr_hits)) Mem.empty).1 = false
  /\ Response (result Mem.exec (IncrHandler incr_hits McResponse0) Mem.empty).1
     = "NOT_FOUND".
Proof.
  split; [reflexivity|]. split; [reflexivity|].
  apply (IncrDecr_not_found_iff Mem.exec IncrHandler incr_hits McResponse0
           Mem.empty (or_introl eq_refl) eq_refl).
  reflexivity.
Defined.
